(** * Video-layer selection core: wrap-around extender and
      dependency-descriptor selector

    A shallow embedding of two Go packages:

    - [utils]: the generic counter extender [WrapAround[T, ET]]
      ([Update], [maybeAdjustStart], [isWrapBack], [getExtendedHighest],
      [RollbackRestart], [ResetHighest]);
    - [videolayerselector]: the dependency-descriptor selector
      ([Select], [Rollback], [updateDependencyStructure],
      [updateActiveDecodeTargets]).

    Go's fixed-width unsigned integers are integers in [Z] whose wrap-around
    is written out with [mod]; a Go pointer that the code tests against
    [nil] is an [option]; a run-time panic (nil dereference, index out of
    range) is the result [None]. *)

From Stdlib Require Import ZArith List Bool Lia String Znumtheory.
Import ListNotations.
Local Open Scope Z_scope.

(* ================================================================= *)
(** ** Package utils: WrapAround *)

Module utils.

(** [type number interface { uint16 | uint32 }] *)
Inductive number : Set := uint16 | uint32.

(** [type extendedNumber interface { uint32 | uint64 }] *)
Inductive extendedNumber : Set := ext_uint32 | ext_uint64.

(** Width in bits: [unsafe.Sizeof(t) * 8]. *)
Definition bits (T : number) : Z :=
  match T with uint16 => 16 | uint32 => 32 end.

Definition ebits (ET : extendedNumber) : Z :=
  match ET with ext_uint32 => 32 | ext_uint64 => 64 end.

(** The struct [WrapAround[T, ET]]; every field holds the unsigned value. *)
Record WrapAround : Set := mkWrapAround {
  fullRange : Z;
  initialized : bool;
  start : Z;
  highest : Z;
  cycles : Z;
  extendedHighest : Z
}.

(** The struct [WrapAroundUpdateResult[ET]]. *)
Record WrapAroundUpdateResult : Set := mkResult {
  IsRestart : bool;
  PreExtendedStart : Z;
  PreExtendedHighest : Z;
  ExtendedVal : Z
}.

Definition set_start (v : Z) (w : WrapAround) : WrapAround :=
  mkWrapAround (fullRange w) (initialized w) v (highest w) (cycles w)
               (extendedHighest w).

Definition set_highest (v : Z) (w : WrapAround) : WrapAround :=
  mkWrapAround (fullRange w) (initialized w) (start w) v (cycles w)
               (extendedHighest w).

Definition set_cycles (v : Z) (w : WrapAround) : WrapAround :=
  mkWrapAround (fullRange w) (initialized w) (start w) (highest w) v
               (extendedHighest w).

Definition set_extendedHighest (v : Z) (w : WrapAround) : WrapAround :=
  mkWrapAround (fullRange w) (initialized w) (start w) (highest w) (cycles w) v.

Definition set_initialized (b : bool) (w : WrapAround) : WrapAround :=
  mkWrapAround (fullRange w) b (start w) (highest w) (cycles w)
               (extendedHighest w).

Section Generic.

Variable T : number.
Variable ET : extendedNumber.

(** Conversions [T(x)] and [ET(x)], and the result of arithmetic in each
    type: reduction modulo the width. *)
Definition toT (z : Z) : Z := z mod 2 ^ bits T.
Definition toET (z : Z) : Z := z mod 2 ^ ebits ET.

(** [NewWrapAround]: the shift count is not a constant, so the untyped [1]
    takes the type [ET] and the shift is computed in [ET]. *)
Definition NewWrapAround : WrapAround :=
  mkWrapAround (toET (Z.shiftl 1 (bits T))) false 0 0 0 0.

Definition getExtendedHighest (cyc val : Z) : Z := toET (cyc + toET val).

Definition updateExtendedHighest (w : WrapAround) : WrapAround :=
  set_extendedHighest (getExtendedHighest (cycles w) (highest w)) w.

Definition GetExtendedStart (w : WrapAround) : Z := toET (start w).

Definition GetExtendedHighest (w : WrapAround) : Z := extendedHighest w.

Definition isWrapBack (w : WrapAround) (earlier later : Z) : bool :=
  (toET later <? Z.shiftr (fullRange w) 1)
  && (toET earlier >=? Z.shiftr (fullRange w) 1).

(** [totalNum := w.GetExtendedHighest() - w.GetExtendedStart() + 1] *)
Definition totalNum (w : WrapAround) : Z :=
  toET (toET (GetExtendedHighest w - GetExtendedStart w) + 1).

Definition maybeAdjustStart (w : WrapAround) (val : Z)
  : WrapAround * WrapAroundUpdateResult :=
  let cycles0 := cycles w in
  if totalNum w >? Z.shiftr (fullRange w) 1 then
    let cycles1 :=
      if isWrapBack w val (highest w) then toET (cycles0 - fullRange w)
      else cycles0 in
    (w, mkResult false 0 (extendedHighest w) (getExtendedHighest cycles1 val))
  else if toT (val - start w) >? toT (Z.shiftr (fullRange w) 1) then
    let pre :=
      if val >? start w then toET (fullRange w + toET (start w))
      else toET (start w) in
    let '(w1, cycles1) :=
      if isWrapBack w val (highest w)
      then (updateExtendedHighest (set_cycles (fullRange w) w), 0)
      else (w, cycles0) in
    let w2 := set_start val w1 in
    (w2, mkResult true pre (extendedHighest w2) (getExtendedHighest cycles1 val))
  else
    let cycles1 :=
      if isWrapBack w val (highest w) then toET (cycles0 - fullRange w)
      else cycles0 in
    (w, mkResult false 0 (extendedHighest w) (getExtendedHighest cycles1 val)).

Definition Update (w : WrapAround) (val : Z)
  : WrapAround * WrapAroundUpdateResult :=
  if negb (initialized w) then
    let w1 := set_start val w in
    let w2 := set_highest val w1 in
    let w3 := updateExtendedHighest w2 in
    let w4 := set_initialized true w3 in
    (w4, mkResult false 0 (toET (toET val - 1)) (toET val))
  else
    let gap := toT (val - highest w) in
    if gap >? toT (Z.shiftr (fullRange w) 1) then
      maybeAdjustStart w val
    else
      let pre := extendedHighest w in
      let w1 :=
        if val <? highest w then set_cycles (toET (cycles w + fullRange w)) w
        else w in
      let w2 := set_highest val w1 in
      let w3 := updateExtendedHighest w2 in
      (w3, mkResult false 0 pre (extendedHighest w3)).

Definition RollbackRestart (w : WrapAround) (ev : Z) : WrapAround :=
  let w1 :=
    if isWrapBack w (start w) (toT ev)
    then updateExtendedHighest (set_cycles (toET (cycles w - fullRange w)) w)
    else w in
  set_start (toT ev) w1.

Definition ResetHighest (w : WrapAround) (ev : Z) : WrapAround :=
  let w1 := set_highest (toT ev) w in
  let w2 :=
    set_cycles (Z.land ev (toET (Z.lnot (toET (fullRange w - 1))))) w1 in
  updateExtendedHighest w2.

(** A sequence of [Update] calls, collecting the results in call order. *)
Fixpoint updates (w : WrapAround) (vals : list Z)
  : WrapAround * list WrapAroundUpdateResult :=
  match vals with
  | [] => (w, [])
  | v :: vs =>
      let '(w1, r) := Update w v in
      let '(w2, rs) := updates w1 vs in
      (w2, r :: rs)
  end.

(** A value of type [T]. *)
Definition inT (v : Z) : Prop := 0 <= v < 2 ^ bits T.

(** A value of type [ET]. *)
Definition inET (v : Z) : Prop := 0 <= v < 2 ^ ebits ET.

(** A state built by [NewWrapAround] whose fields hold values of their
    types. *)
Definition wf (w : WrapAround) : Prop :=
  fullRange w = toET (Z.shiftl 1 (bits T))
  /\ inT (start w) /\ inT (highest w)
  /\ inET (cycles w) /\ inET (extendedHighest w).

(** The extended type is strictly wider than the raw one: the
    instantiations [uint16, uint32], [uint16, uint64], [uint32, uint64]. *)
Definition proper : Prop := bits T < ebits ET.

(** [cycles] is a multiple of the raw range, and so is [fullRange]. *)
Definition aligned (w : WrapAround) : Prop :=
  cycles w mod 2 ^ bits T = 0 /\ fullRange w mod 2 ^ bits T = 0.

End Generic.

End utils.

(* ================================================================= *)
(** ** Package buffer and package dependencydescriptor: the data a
       packet carries *)

Module buffer.

(** Modelled from the spec: [buffer.VideoLayer], a pair of [int32] whose
    declaration is outside the selector's file. *)
Record VideoLayer : Set := mkLayer { Spatial : Z; Temporal : Z }.

(** Modelled from the spec: the sentinel [Invalid = (-1, -1)]. *)
Definition InvalidLayer : VideoLayer := mkLayer (-1) (-1).

(** Go's [==] on the struct. *)
Definition VideoLayer_eqb (a b : VideoLayer) : bool :=
  (Spatial a =? Spatial b) && (Temporal a =? Temporal b).

(** Modelled from the spec: [VideoLayer.IsValid], whose body is outside the
    selector's file; a layer is valid unless it is the sentinel. *)
Definition IsValid (l : VideoLayer) : bool := negb (VideoLayer_eqb l InvalidLayer).

(** Modelled from the spec: [buffer.DependencyDescriptorDecodeTarget], the
    pair [(target_index, layer)] of a packet's decode-target list. *)
Record DependencyDescriptorDecodeTarget : Set := mkDDDT {
  Target : Z;
  Layer : VideoLayer
}.

(** Modelled from the spec: [buffer.GetActiveDecodeTargetBitmask], the OR of
    [1 << i] over every decode target whose layer is at most [layer] in both
    dimensions, as a [uint32] behind a pointer. *)
Definition GetActiveDecodeTargetBitmask (layer : VideoLayer)
    (decodeTargets : list DependencyDescriptorDecodeTarget) : option Z :=
  Some (fold_left
          (fun mask dt =>
             if (Spatial (Layer dt) <=? Spatial layer)
                && (Temporal (Layer dt) <=? Temporal layer)
             then Z.lor mask (Z.shiftl 1 (Target dt) mod 2 ^ 32)
             else mask)
          decodeTargets 0).

End buffer.

Module dede.

(** Modelled from the spec: the decode target indication of a frame for a
    target; [DecodeTargetNotPresent] is the zero value. *)
Inductive DecodeTargetIndication : Set :=
| DecodeTargetNotPresent
| DecodeTargetDiscardable
| DecodeTargetSwitch
| DecodeTargetRequired.

Definition DecodeTargetIndication_eqb (a b : DecodeTargetIndication) : bool :=
  match a, b with
  | DecodeTargetNotPresent, DecodeTargetNotPresent
  | DecodeTargetDiscardable, DecodeTargetDiscardable
  | DecodeTargetSwitch, DecodeTargetSwitch
  | DecodeTargetRequired, DecodeTargetRequired => true
  | _, _ => false
  end.

(** Modelled from the spec: the per-frame dependencies. [SpatialId],
    [TemporalId] and the diffs are Go [int]s. *)
Record FrameDependencyTemplate : Set := mkFDT {
  SpatialId : Z;
  TemporalId : Z;
  DecodeTargetIndications : list DecodeTargetIndication;
  FrameDiffs : list Z;
  ChainDiffs : list Z
}.

(** Modelled from the spec: the structure a keyframe attaches. *)
Record FrameDependencyStructure : Set := mkFDS {
  NumDecodeTargets : Z;
  NumChains : Z;
  DecodeTargetProtectedByChain : list Z
}.

(** Modelled from the spec: the parsed descriptor. The attached structure
    and the bitmask are pointers that may be nil. *)
Record DependencyDescriptor : Set := mkDD {
  LastPacketInFrame : bool;
  FrameNumber : Z;
  FrameDependencies : FrameDependencyTemplate;
  AttachedStructure : option FrameDependencyStructure;
  ActiveDecodeTargetsBitmask : option Z
}.

(** The value [Marshal] is called on. *)
Record DependencyDescriptorExtension : Set := mkDDE {
  Descriptor : DependencyDescriptor;
  Structure : option FrameDependencyStructure
}.

End dede.

Module packet.

Import buffer.

(** Modelled from the spec: the descriptor with the fields the receive
    pipeline adds to it. *)
Record ExtDependencyDescriptor : Set := mkExtDD {
  Descriptor : dede.DependencyDescriptor;
  DecodeTargets : list DependencyDescriptorDecodeTarget;
  StructureUpdated : bool;
  ActiveDecodeTargetsUpdated : bool;
  Integrity : bool;
  ExtFrameNum : Z
}.

(** Modelled from the spec: [buffer.ExtPacket]; of the RTP header only the
    marker bit takes part in the selection. *)
Record ExtPacket : Set := mkExtPacket {
  Marker : bool;
  SequenceNumber : Z;
  KeyFrame : bool;
  IncomingLayer : VideoLayer;
  DependencyDescriptor : option ExtDependencyDescriptor
}.

End packet.

(* ================================================================= *)
(** ** Package videolayerselector: the dependency-descriptor selector *)

Module videolayerselector.

Import buffer.
Local Open Scope string_scope.
Local Open Scope list_scope.
Local Open Scope Z_scope.

Definition error : Set := string.

(** The decisions [GetDecision] reports. The selector's file names only
    [selectorDecisionDropped]; the others follow the spec's decision kinds,
    with [selectorDecisionMissing] the value that accompanies an error. *)
Inductive selectorDecision : Set :=
| selectorDecisionMissing
| selectorDecisionDropped
| selectorDecisionForwarded
| selectorDecisionUnknown.

Definition isDropped (sd : selectorDecision) : bool :=
  match sd with selectorDecisionDropped => true | _ => false end.

(** What [DecodeTarget.OnFrame] returns beside its error. *)
Record FrameDetectionResult : Set := mkFDR {
  TargetValid : bool;
  DTI : dede.DecodeTargetIndication
}.

(** The collaborators of the selector whose code lives in other files of
    the package: the decision cache, the frame chains and the decode
    targets. The selector holds the cache and the chains behind pointers; a
    chain keeps a pointer to the cache, and a decode target keeps a pointer
    to its chain. The embedding stores the cache and the chain list in the
    selector state, refers to a chain by its index in that list (the
    selector rebuilds both lists together), and hands every method the part
    of the store it can reach. Only the selector writes decisions, so chains
    and decode targets receive the cache read-only. *)
Class Collaborators : Type := {
  SelectorDecisionCache : Type;
  GetDecision : SelectorDecisionCache -> Z -> selectorDecision * option error;
  AddForwarded : SelectorDecisionCache -> Z -> SelectorDecisionCache;
  AddDropped : SelectorDecisionCache -> Z -> SelectorDecisionCache;

  FrameChain : Type;
  NewFrameChain : Z -> FrameChain;
  FrameChain_OnFrame :
    SelectorDecisionCache -> FrameChain -> Z -> dede.FrameDependencyTemplate ->
    FrameChain;
  BeginUpdateActive : FrameChain -> FrameChain;
  EndUpdateActive : FrameChain -> FrameChain;

  DecodeTarget : Type;
  NewDecodeTarget : DependencyDescriptorDecodeTarget -> option nat -> DecodeTarget;
  (** the embedded [buffer.DependencyDescriptorDecodeTarget] *)
  embedded : DecodeTarget -> DependencyDescriptorDecodeTarget;
  Active : DecodeTarget -> bool;
  UpdateActive :
    Z -> list FrameChain -> DecodeTarget -> DecodeTarget * list FrameChain;
  DecodeTarget_OnFrame :
    list FrameChain -> DecodeTarget -> Z -> dede.FrameDependencyTemplate ->
    DecodeTarget * (FrameDetectionResult + error)
}.

(** The record [VideoLayerSelectorResult]; a nil byte slice is [None]. *)
Record VideoLayerSelectorResult : Set := mkVLSResult {
  IsSelected : bool;
  IsRelevant : bool;
  IsSwitching : bool;
  IsResuming : bool;
  RTPMarker : bool;
  DependencyDescriptorExtension : option (list Byte.byte)
}.

(** The zero value of the named result. *)
Definition zeroResult : VideoLayerSelectorResult :=
  mkVLSResult false false false false false None.

Definition set_IsSelected (b : bool) (r : VideoLayerSelectorResult) :=
  mkVLSResult b (IsRelevant r) (IsSwitching r) (IsResuming r) (RTPMarker r)
              (DependencyDescriptorExtension r).

Definition set_IsRelevant (b : bool) (r : VideoLayerSelectorResult) :=
  mkVLSResult (IsSelected r) b (IsSwitching r) (IsResuming r) (RTPMarker r)
              (DependencyDescriptorExtension r).

Definition set_IsSwitching (b : bool) (r : VideoLayerSelectorResult) :=
  mkVLSResult (IsSelected r) (IsRelevant r) b (IsResuming r) (RTPMarker r)
              (DependencyDescriptorExtension r).

Definition set_IsResuming (b : bool) (r : VideoLayerSelectorResult) :=
  mkVLSResult (IsSelected r) (IsRelevant r) (IsSwitching r) b (RTPMarker r)
              (DependencyDescriptorExtension r).

Definition set_RTPMarker (b : bool) (r : VideoLayerSelectorResult) :=
  mkVLSResult (IsSelected r) (IsRelevant r) (IsSwitching r) (IsResuming r) b
              (DependencyDescriptorExtension r).

Definition set_Extension (x : option (list Byte.byte))
    (r : VideoLayerSelectorResult) :=
  mkVLSResult (IsSelected r) (IsRelevant r) (IsSwitching r) (IsResuming r)
              (RTPMarker r) x.

(** Modelled from the spec: the layer state [Base] that every selector
    variant shares. *)
Record Base : Set := mkBase {
  currentLayer : VideoLayer;
  previousLayer : VideoLayer;
  targetLayer : VideoLayer;
  maxLayer : VideoLayer;
  requestSpatial : Z;
  maxSeenLayer : VideoLayer
}.

(** Modelled from the spec: [Base.Rollback], which restores
    [current_layer <- previous_layer]. *)
Definition Base_Rollback (b : Base) : Base :=
  mkBase (previousLayer b) (previousLayer b) (targetLayer b) (maxLayer b)
         (requestSpatial b) (maxSeenLayer b).

(** What the selector hands to its logger: the method and the message. *)
Inductive logLevel : Set := Debugw | Infow | Warnw | Errorw.

Definition logEntry : Set := (logLevel * string)%type.

Section Selector.

Context {C : Collaborators}.

(** The struct [DependencyDescriptor]. [logged] is the trace of the
    selector's own calls to its logger, oldest first. *)
Record DependencyDescriptor : Type := mkSelector {
  base : Base;
  decisions : SelectorDecisionCache;
  previousActiveDecodeTargetsBitmask : option Z;
  activeDecodeTargetsBitmask : option Z;
  structure : option dede.FrameDependencyStructure;
  chains : list FrameChain;
  decodeTargets : list DecodeTarget;
  logged : list logEntry
}.

Definition set_base (b : Base) (d : DependencyDescriptor) :=
  mkSelector b (decisions d) (previousActiveDecodeTargetsBitmask d)
             (activeDecodeTargetsBitmask d) (structure d) (chains d)
             (decodeTargets d) (logged d).

Definition set_decisions (c : SelectorDecisionCache) (d : DependencyDescriptor) :=
  mkSelector (base d) c (previousActiveDecodeTargetsBitmask d)
             (activeDecodeTargetsBitmask d) (structure d) (chains d)
             (decodeTargets d) (logged d).

Definition set_previousActiveDecodeTargetsBitmask (m : option Z)
    (d : DependencyDescriptor) :=
  mkSelector (base d) (decisions d) m (activeDecodeTargetsBitmask d)
             (structure d) (chains d) (decodeTargets d) (logged d).

Definition set_activeDecodeTargetsBitmask (m : option Z)
    (d : DependencyDescriptor) :=
  mkSelector (base d) (decisions d) (previousActiveDecodeTargetsBitmask d) m
             (structure d) (chains d) (decodeTargets d) (logged d).

Definition set_structure (s : option dede.FrameDependencyStructure)
    (d : DependencyDescriptor) :=
  mkSelector (base d) (decisions d) (previousActiveDecodeTargetsBitmask d)
             (activeDecodeTargetsBitmask d) s (chains d) (decodeTargets d)
             (logged d).

Definition set_chains (cs : list FrameChain) (d : DependencyDescriptor) :=
  mkSelector (base d) (decisions d) (previousActiveDecodeTargetsBitmask d)
             (activeDecodeTargetsBitmask d) (structure d) cs (decodeTargets d)
             (logged d).

Definition set_decodeTargets (ts : list DecodeTarget) (d : DependencyDescriptor) :=
  mkSelector (base d) (decisions d) (previousActiveDecodeTargetsBitmask d)
             (activeDecodeTargetsBitmask d) (structure d) (chains d) ts
             (logged d).

Definition logAll (ls : list logEntry) (d : DependencyDescriptor) :=
  mkSelector (base d) (decisions d) (previousActiveDecodeTargetsBitmask d)
             (activeDecodeTargetsBitmask d) (structure d) (chains d)
             (decodeTargets d) (logged d ++ ls).

Definition log (l : logLevel) (msg : string) (d : DependencyDescriptor) :=
  logAll [(l, msg)] d.

Definition set_currentLayer (l : VideoLayer) (d : DependencyDescriptor) :=
  set_base (mkBase l (previousLayer (base d)) (targetLayer (base d))
                   (maxLayer (base d)) (requestSpatial (base d))
                   (maxSeenLayer (base d))) d.

Definition set_previousLayer (l : VideoLayer) (d : DependencyDescriptor) :=
  set_base (mkBase (currentLayer (base d)) l (targetLayer (base d))
                   (maxLayer (base d)) (requestSpatial (base d))
                   (maxSeenLayer (base d))) d.

(** [NewDependencyDescriptor], from a fresh [Base] and a fresh cache
    ([NewSelectorDecisionCache(256, 80)]). *)
Definition NewDependencyDescriptor (b : Base) (cache : SelectorDecisionCache)
  : DependencyDescriptor :=
  mkSelector b cache None None None [] [] [].

(** Conversions [uint64(x)] and [int32(x)]. *)
Definition toU64 (z : Z) : Z := z mod 2 ^ 64.
Definition toInt32 (z : Z) : Z := (z + 2 ^ 31) mod 2 ^ 32 - 2 ^ 31.

(** Indexing a slice with a Go [int]: out of range panics. *)
Definition index {A : Type} (l : list A) (i : Z) : option A :=
  if i <? 0 then None else nth_error l (Z.to_nat i).

(** The chain a decode target is built with, and what is logged for it:
    the body of the loop over [decodeTargets] in
    [updateDependencyStructure]. [numChains] is [len(d.chains)]. *)
Definition protectingChain (s : dede.FrameDependencyStructure)
    (numChains : nat) (dt : DependencyDescriptorDecodeTarget)
  : option (option nat * list logEntry) :=
  if dede.NumChains s >? 0 then
    match index (dede.DecodeTargetProtectedByChain s) (Target dt) with
    | None => None
    | Some chainIdx =>
        if chainIdx >=? Z.of_nat numChains then
          Some (None,
                [(Errorw, "DecodeTargetProtectedByChain chainIdx out of range")])
        else if chainIdx <? 0 then None
        else Some (Some (Z.to_nat chainIdx), [])
    end
  else Some (None, []).

Fixpoint newTargets (s : dede.FrameDependencyStructure) (numChains : nat)
    (dts : list DependencyDescriptorDecodeTarget)
  : option (list DecodeTarget * list logEntry) :=
  match dts with
  | [] => Some ([], [])
  | dt :: rest =>
      match protectingChain s numChains dt with
      | None => None
      | Some (chain, l1) =>
          match newTargets s numChains rest with
          | None => None
          | Some (ts, l2) => Some (NewDecodeTarget dt chain :: ts, l1 ++ l2)
          end
      end
  end.

(** The chains [NewFrameChain(d.decisions, chainIdx, d.logger)] for
    [chainIdx] from [0] below [NumChains]. *)
Definition newChains (numChains : Z) : list FrameChain :=
  map (fun i => NewFrameChain (Z.of_nat i)) (seq 0 (Z.to_nat numChains)).

Definition updateDependencyStructure (d : DependencyDescriptor)
    (structure : option dede.FrameDependencyStructure)
    (decodeTargets : list DependencyDescriptorDecodeTarget)
  : option DependencyDescriptor :=
  let d1 := set_structure structure d in
  match structure with
  | None => None
  | Some s =>
      let d2 := set_chains (newChains (dede.NumChains s)) d1 in
      match newTargets s (List.length (chains d2)) decodeTargets with
      | None => None
      | Some (ts, ls) => Some (set_decodeTargets ts (logAll ls d2))
      end
  end.

Fixpoint updateActiveAll (mask : Z) (cs : list FrameChain)
    (dts : list DecodeTarget) : list DecodeTarget * list FrameChain :=
  match dts with
  | [] => ([], cs)
  | dt :: rest =>
      let '(dt1, cs1) := UpdateActive mask cs dt in
      let '(rest1, cs2) := updateActiveAll mask cs1 rest in
      (dt1 :: rest1, cs2)
  end.

Definition updateActiveDecodeTargets (d : DependencyDescriptor)
    (activeDecodeTargetsBitmask : Z) : DependencyDescriptor :=
  let cs1 := map BeginUpdateActive (chains d) in
  let '(dts, cs2) := updateActiveAll activeDecodeTargetsBitmask cs1 (decodeTargets d) in
  set_decodeTargets dts (set_chains (map EndUpdateActive cs2) d).

(** The outcome of the loop over [d.decodeTargets] in [Select]. *)
Inductive findResult : Type :=
| FrameDetectionError (err : error)
| Highest (highestDecodeTarget : DependencyDescriptorDecodeTarget)
          (dti : dede.DecodeTargetIndication).

(** The loop that looks for the highest decode target at or below the
    target layer; [OnFrame] updates the decode targets it visits. Without a
    match the loop leaves [Target: -1, Layer: InvalidLayer] and the zero
    indication. *)
Fixpoint findHighestDecodeTarget (cs : list FrameChain) (target : VideoLayer)
    (extFrameNum : Z) (fd : dede.FrameDependencyTemplate)
    (dts : list DecodeTarget) : list DecodeTarget * findResult :=
  match dts with
  | [] => ([], Highest (mkDDDT (-1) InvalidLayer) dede.DecodeTargetNotPresent)
  | dt :: rest =>
      if negb (Active dt)
         || (Spatial (Layer (embedded dt)) >? Spatial target)
         || (Temporal (Layer (embedded dt)) >? Temporal target)
      then
        let '(rest1, r) := findHighestDecodeTarget cs target extFrameNum fd rest in
        (dt :: rest1, r)
      else
        match DecodeTarget_OnFrame cs dt extFrameNum fd with
        | (dt1, inr err) => (dt1 :: rest, FrameDetectionError err)
        | (dt1, inl frameResult) =>
            if TargetValid frameResult then
              (dt1 :: rest, Highest (embedded dt1) (DTI frameResult))
            else
              let '(rest1, r) :=
                findHighestDecodeTarget cs target extFrameNum fd rest in
              (dt1 :: rest1, r)
        end
  end.

(** The decodability loop over [fd.FrameDiffs]: the error of [GetDecision]
    is discarded, only a dropped reference makes the frame undecodable. *)
Fixpoint isDecodable (cache : SelectorDecisionCache) (extFrameNum : Z)
    (frameDiffs : list Z) : bool :=
  match frameDiffs with
  | [] => true
  | fdiff :: rest =>
      if fdiff =? 0 then isDecodable cache extFrameNum rest
      else if isDropped (fst (GetDecision cache (toU64 (extFrameNum - toU64 fdiff))))
      then false
      else isDecodable cache extFrameNum rest
  end.

(** The extension handed to [Marshal]: the descriptor, with the active
    bitmask overridden in a copy when no structure is attached and the
    selector has a bitmask. *)
Definition rewrittenExtension (d : DependencyDescriptor)
    (dd : dede.DependencyDescriptor) : dede.DependencyDescriptorExtension :=
  match dede.AttachedStructure dd, activeDecodeTargetsBitmask d with
  | None, Some m =>
      dede.mkDDE
        (dede.mkDD (dede.LastPacketInFrame dd) (dede.FrameNumber dd)
                   (dede.FrameDependencies dd) (dede.AttachedStructure dd)
                   (Some m))
        (structure d)
  | _, _ => dede.mkDDE dd (structure d)
  end.

Section Select.

(** [DependencyDescriptorExtension.Marshal], of package
    dependencydescriptor: the bytes, or an error. *)
Variable Marshal : dede.DependencyDescriptorExtension -> list Byte.byte + error.

Definition Select (d : DependencyDescriptor) (extPkt : packet.ExtPacket)
    (_layer : Z) : option (DependencyDescriptor * VideoLayerSelectorResult) :=
  let result :=
    if IsValid (currentLayer (base d)) then set_IsRelevant true zeroResult
    else zeroResult in
  match packet.DependencyDescriptor extPkt with
  | None => Some (log Debugw "drop packet, no DD" d, result)
  | Some ddwdt =>
  let dd := packet.Descriptor ddwdt in
  let extFrameNum := packet.ExtFrameNum ddwdt in
  let fd := dede.FrameDependencies dd in
  match GetDecision (decisions d) extFrameNum with
  | (_, Some err) => Some (log Debugw "drop packet on decision error" d, result)
  | (selectorDecisionDropped, None) =>
      Some (log Debugw "drop packet already dropped" d, result)
  | (_, None) =>
  match (if packet.StructureUpdated ddwdt
         then updateDependencyStructure d (dede.AttachedStructure dd)
                                        (packet.DecodeTargets ddwdt)
         else Some d) with
  | None => None
  | Some d1 =>
  match (if packet.ActiveDecodeTargetsUpdated ddwdt
         then match dede.ActiveDecodeTargetsBitmask dd with
              | None => None
              | Some m => Some (updateActiveDecodeTargets d1 m)
              end
         else Some d1) with
  | None => None
  | Some d2 =>
  let d3 :=
    set_chains
      (map (fun chain => FrameChain_OnFrame (decisions d2) chain extFrameNum fd)
           (chains d2)) d2 in
  match findHighestDecodeTarget (chains d3) (targetLayer (base d3)) extFrameNum fd
                                (decodeTargets d3) with
  | (dts, FrameDetectionError err) =>
      let d4 := log Debugw "drop packet for frame detection error"
                    (set_decodeTargets dts d3) in
      Some (set_decisions (AddDropped (decisions d4) extFrameNum) d4, result)
  | (dts, Highest highestDecodeTarget dti) =>
  let d4 := set_decodeTargets dts d3 in
  if Target highestDecodeTarget <? 0 then
    let d5 := log Debugw "drop packet for no target found" d4 in
    Some (set_decisions (AddDropped (decisions d5) extFrameNum) d5, result)
  else if dede.DecodeTargetIndication_eqb dti dede.DecodeTargetNotPresent then
    let d5 := log Debugw "drop packet for decode target not present" d4 in
    Some (set_decisions (AddDropped (decisions d5) extFrameNum) d5, result)
  else if negb (isDecodable (decisions d4) extFrameNum (dede.FrameDiffs fd)) then
    let d5 := log Debugw "drop packet for not decodable" d4 in
    Some (set_decisions (AddDropped (decisions d5) extFrameNum) d5, result)
  else
  match
    (if negb (VideoLayer_eqb (currentLayer (base d4)) (Layer highestDecodeTarget))
     then
       let result1 := set_IsSwitching true result in
       let '(d5, result2) :=
         if negb (IsValid (currentLayer (base d4)))
         then (log Infow "resuming at layer" d4, set_IsResuming true result1)
         else (d4, result1) in
       let d6 := set_previousLayer (currentLayer (base d5)) d5 in
       let d7 := set_currentLayer (Layer highestDecodeTarget) d6 in
       let d8 :=
         set_previousActiveDecodeTargetsBitmask (activeDecodeTargetsBitmask d7) d7 in
       let d9 :=
         set_activeDecodeTargetsBitmask
           (GetActiveDecodeTargetBitmask (currentLayer (base d8))
                                         (packet.DecodeTargets ddwdt)) d8 in
       match activeDecodeTargetsBitmask d9 with
       | None => None
       | Some _ =>
           Some (log Debugw "switch to target" d9, set_IsRelevant true result2)
       end
     else Some (d4, result)) with
  | None => None
  | Some (d10, result3) =>
  let ddExtension := rewrittenExtension d10 dd in
  let '(d11, result4) :=
    match Marshal ddExtension with
    | inr err =>
        (log Warnw "error marshalling dependency descriptor extension" d10,
         result3)
    | inl bytes => (d10, set_Extension (Some bytes) result3)
    end in
  let d12 :=
    if packet.Integrity ddwdt
    then set_decisions (AddForwarded (decisions d11) extFrameNum) d11
    else d11 in
  let result5 :=
    set_RTPMarker
      (packet.Marker extPkt
       || (dede.LastPacketInFrame dd
           && (Spatial (currentLayer (base d12)) =? toInt32 (dede.SpatialId fd))))
      result4 in
  Some (d12, set_IsSelected true result5)
  end end end end end end.

End Select.

Definition Rollback (d : DependencyDescriptor) : DependencyDescriptor :=
  let d1 :=
    set_activeDecodeTargetsBitmask (previousActiveDecodeTargetsBitmask d) d in
  set_base (Base_Rollback (base d1)) d1.

(** *** Notions the properties of the selector are stated with *)

(** The selector state [Select] runs the loop over the decode targets in:
    after the structure update, the update of the active decode targets and
    the chains' [OnFrame]. *)
Definition beforeTargets (d : DependencyDescriptor)
    (ddwdt : packet.ExtDependencyDescriptor) : option DependencyDescriptor :=
  let dd := packet.Descriptor ddwdt in
  match (if packet.StructureUpdated ddwdt
         then updateDependencyStructure d (dede.AttachedStructure dd)
                                        (packet.DecodeTargets ddwdt)
         else Some d) with
  | None => None
  | Some d1 =>
      match (if packet.ActiveDecodeTargetsUpdated ddwdt
             then match dede.ActiveDecodeTargetsBitmask dd with
                  | None => None
                  | Some m => Some (updateActiveDecodeTargets d1 m)
                  end
             else Some d1) with
      | None => None
      | Some d2 =>
          Some (set_chains
                  (map (fun chain =>
                          FrameChain_OnFrame (decisions d2) chain
                            (packet.ExtFrameNum ddwdt) (dede.FrameDependencies dd))
                       (chains d2)) d2)
      end
  end.

(** The error [updateDependencyStructure] logs for a chain index out of
    range. *)
Definition outOfRangeEntry : logEntry :=
  (Errorw, "DecodeTargetProtectedByChain chainIdx out of range").

(** A decode target whose protecting chain index is at or above the number
    of chains of a structure that has chains. *)
Definition outOfRange (s : dede.FrameDependencyStructure)
    (dt : DependencyDescriptorDecodeTarget) : bool :=
  (dede.NumChains s >? 0)
  && match index (dede.DecodeTargetProtectedByChain s) (Target dt) with
     | Some chainIdx => chainIdx >=? dede.NumChains s
     | None => false
     end.

(** The chain, if any, a decode target of the structure is protected by. *)
Definition chainOf (s : dede.FrameDependencyStructure)
    (dt : DependencyDescriptorDecodeTarget) : option nat :=
  if dede.NumChains s >? 0 then
    match index (dede.DecodeTargetProtectedByChain s) (Target dt) with
    | Some chainIdx =>
        if chainIdx >=? dede.NumChains s then None
        else Some (Z.to_nat chainIdx)
    | None => None
    end
  else None.

(** The structure names a chain index for the target, and the index is not
    negative: the update does not panic on it. *)
Definition indexable (s : dede.FrameDependencyStructure)
    (dt : DependencyDescriptorDecodeTarget) : Prop :=
  dede.NumChains s > 0 ->
  exists chainIdx,
    index (dede.DecodeTargetProtectedByChain s) (Target dt) = Some chainIdx
    /\ 0 <= chainIdx.

(** The layer state of the selector: [current_layer], [previous_layer] and
    the rest of [Base], the active bitmask and the previous active bitmask;
    and the decision cache. [frame d d'] says that [d'] has them as [d]. *)
Definition frame (d d' : DependencyDescriptor) : Prop :=
  base d' = base d
  /\ activeDecodeTargetsBitmask d' = activeDecodeTargetsBitmask d
  /\ previousActiveDecodeTargetsBitmask d' = previousActiveDecodeTargetsBitmask d.

(** The result every path of [Select] that does not select returns. *)
Definition notSelected (d : DependencyDescriptor) : VideoLayerSelectorResult :=
  if IsValid (currentLayer (base d)) then set_IsRelevant true zeroResult
  else zeroResult.

(** What a call that selects has done: [chosen] is the decode target the
    loop stopped at, in the state [d3] the loop ran in. *)
Definition selectedAs
    (Marshal : dede.DependencyDescriptorExtension -> list Byte.byte + error)
    (d : DependencyDescriptor) (p : packet.ExtPacket)
    (d' : DependencyDescriptor) (r : VideoLayerSelectorResult)
    (ddwdt : packet.ExtDependencyDescriptor) (d3 : DependencyDescriptor)
    (dts : list DecodeTarget) (chosen : DependencyDescriptorDecodeTarget)
    (dti : dede.DecodeTargetIndication) : Prop :=
  let dd := packet.Descriptor ddwdt in
  let fd := dede.FrameDependencies dd in
  let efn := packet.ExtFrameNum ddwdt in
  let cur := currentLayer (base d) in
  let sw := negb (VideoLayer_eqb cur (Layer chosen)) in
  packet.DependencyDescriptor p = Some ddwdt
  /\ snd (GetDecision (decisions d) efn) = None
  /\ fst (GetDecision (decisions d) efn) <> selectorDecisionDropped
  /\ beforeTargets d ddwdt = Some d3
  /\ findHighestDecodeTarget (chains d3) (targetLayer (base d3)) efn fd
                             (decodeTargets d3)
     = (dts, Highest chosen dti)
  /\ 0 <= Target chosen
  /\ dti <> dede.DecodeTargetNotPresent
  /\ isDecodable (decisions d) efn (dede.FrameDiffs fd) = true
  /\ base d' = mkBase (Layer chosen)
                      (if sw then cur else previousLayer (base d))
                      (targetLayer (base d)) (maxLayer (base d))
                      (requestSpatial (base d)) (maxSeenLayer (base d))
  /\ previousActiveDecodeTargetsBitmask d'
     = (if sw then activeDecodeTargetsBitmask d
        else previousActiveDecodeTargetsBitmask d)
  /\ activeDecodeTargetsBitmask d'
     = (if sw
        then GetActiveDecodeTargetBitmask (Layer chosen)
                                          (packet.DecodeTargets ddwdt)
        else activeDecodeTargetsBitmask d)
  /\ decisions d'
     = (if packet.Integrity ddwdt then AddForwarded (decisions d) efn
        else decisions d)
  /\ structure d' = structure d3
  /\ chains d' = chains d3
  /\ decodeTargets d' = dts
  /\ r = mkVLSResult true (IsValid cur || sw) sw (sw && negb (IsValid cur))
           (packet.Marker p
            || (dede.LastPacketInFrame dd
                && (Spatial (Layer chosen) =? toInt32 (dede.SpatialId fd))))
           (match Marshal (rewrittenExtension d' dd) with
            | inl bytes => Some bytes
            | inr _ => None
            end).

End Selector.

End videolayerselector.

(* ================================================================= *)
(** ** The collaborators as the spec describes them *)

Module specmodel.

Import buffer videolayerselector.
Local Open Scope string_scope.
Local Open Scope list_scope.
Local Open Scope Z_scope.

(** Modelled from the spec: [SelectorDecisionCache], declared in another
    file of the package. A bounded map from extended frame number to
    forwarded or dropped, of width [N] with margin [T]; [H] is the highest
    inserted frame number, and keys below [H - N + T] are evicted. *)
Record Cache : Set := mkCache {
  cacheN : Z;
  cacheT : Z;
  cacheH : option Z;
  entries : list (Z * selectorDecision)
}.

Definition NewSelectorDecisionCache (n t : Z) : Cache := mkCache n t None [].

(** Modelled from the spec: [TooOld iff efn < H - N + T]. *)
Definition tooOld (c : Cache) (efn : Z) : bool :=
  match cacheH c with
  | None => false
  | Some h => efn <? h - cacheN c + cacheT c
  end.

Fixpoint lookup (es : list (Z * selectorDecision)) (efn : Z)
  : option selectorDecision :=
  match es with
  | [] => None
  | (k, sd) :: rest => if k =? efn then Some sd else lookup rest efn
  end.

(** Modelled from the spec: [get_decision], [TooOld] being the error and
    [Unknown] the answer inside the window for a key never written. *)
Definition cache_GetDecision (c : Cache) (efn : Z)
  : selectorDecision * option error :=
  if tooOld c efn then (selectorDecisionMissing, Some "too old")
  else match lookup (entries c) efn with
       | Some sd => (sd, None)
       | None => (selectorDecisionUnknown, None)
       end.

(** Modelled from the spec: [add_forwarded] and [add_dropped]. The first
    write wins, a key that is too old is not written, [H] advances on an
    insert and the keys that fall out of the window are evicted. *)
Definition addEntity (c : Cache) (efn : Z) (sd : selectorDecision) : Cache :=
  if tooOld c efn then c
  else match lookup (entries c) efn with
       | Some _ => c
       | None =>
           let h := match cacheH c with
                    | None => efn
                    | Some h0 => Z.max h0 efn
                    end in
           mkCache (cacheN c) (cacheT c) (Some h)
                   (filter (fun e => negb (fst e <? h - cacheN c + cacheT c))
                           ((efn, sd) :: entries c))
       end.

Definition cache_AddForwarded (c : Cache) (efn : Z) : Cache :=
  addEntity c efn selectorDecisionForwarded.

Definition cache_AddDropped (c : Cache) (efn : Z) : Cache :=
  addEntity c efn selectorDecisionDropped.

(** Modelled from the spec: the per-chain state of [FrameChain]. *)
Record Chain : Set := mkChain {
  chainIdx : Z;
  expected_previous : Z;
  chain_active : bool;
  broken : bool
}.

(** Modelled from the spec: a chain of a fresh structure is not broken. *)
Definition chain_New (idx : Z) : Chain := mkChain idx 0 false false.

(** Modelled from the spec: [FrameChain.on_frame]. The previous frame in the
    chain is [efn] minus the frame's chain diff; a frame that is its own
    predecessor starts the chain; the chain breaks when the expected
    previous frame was dropped or is too old, and advances when the frame
    names the expected previous frame. *)
Definition chain_OnFrame (c : Cache) (fc : Chain) (efn : Z)
    (fd : dede.FrameDependencyTemplate) : Chain :=
  match index (dede.ChainDiffs fd) (chainIdx fc) with
  | None => fc
  | Some diff =>
      if diff =? 0 then mkChain (chainIdx fc) efn (chain_active fc) false
      else
        let lost :=
          match cache_GetDecision c (expected_previous fc) with
          | (selectorDecisionDropped, _) => true
          | (_, Some _) => true
          | _ => false
          end in
        if efn - diff =? expected_previous fc
        then mkChain (chainIdx fc) efn (chain_active fc) (broken fc || lost)
        else mkChain (chainIdx fc) (expected_previous fc) (chain_active fc)
                     (broken fc || lost)
  end.

(** Modelled from the spec: the bracket of a round of bitmask updates; the
    round recomputes [active] from the decode targets. *)
Definition chain_BeginUpdateActive (fc : Chain) : Chain :=
  mkChain (chainIdx fc) (expected_previous fc) false (broken fc).

Definition chain_EndUpdateActive (fc : Chain) : Chain := fc.

(** Modelled from the spec: the state of [DecodeTarget]; the chain is the
    index of the protecting chain in the selector's chain list. *)
Record Target_ : Set := mkTarget {
  dt_embedded : DependencyDescriptorDecodeTarget;
  dt_chain : option nat;
  dt_active : bool;
  dt_valid : bool
}.

Definition target_New (dt : DependencyDescriptorDecodeTarget)
    (chain : option nat) : Target_ :=
  mkTarget dt chain false false.

Fixpoint activate (cs : list Chain) (i : nat) : list Chain :=
  match cs, i with
  | [], _ => []
  | fc :: rest, O =>
      mkChain (chainIdx fc) (expected_previous fc) true (broken fc) :: rest
  | fc :: rest, S j => fc :: activate rest j
  end.

(** Modelled from the spec: [update_active],
    [active = (bitmask >> target_index) & 1]; an active target makes its
    chain active. *)
Definition target_UpdateActive (bitmask : Z) (cs : list Chain) (t : Target_)
  : Target_ * list Chain :=
  let a := Z.testbit bitmask (Target (dt_embedded t)) in
  (mkTarget (dt_embedded t) (dt_chain t) a (dt_valid t),
   match dt_chain t with
   | Some i => if a then activate cs i else cs
   | None => cs
   end).

Definition chainBroken (cs : list Chain) (chain : option nat) : bool :=
  match chain with
  | None => false
  | Some i => match nth_error cs i with
              | Some fc => broken fc
              | None => false
              end
  end.

(** Modelled from the spec: [DecodeTarget.on_frame]. A frame without an
    indication for the target fails with [MissingDti]; otherwise
    [target_valid = active /\ (chain is None \/ ~ chain.broken) /\
    DTI <> NotPresent], which [valid] remembers. *)
Definition target_OnFrame (cs : list Chain) (t : Target_) (efn : Z)
    (fd : dede.FrameDependencyTemplate)
  : Target_ * (FrameDetectionResult + error) :=
  match index (dede.DecodeTargetIndications fd) (Target (dt_embedded t)) with
  | None => (t, inr "MissingDti")
  | Some dti =>
      let v := dt_active t
               && negb (chainBroken cs (dt_chain t))
               && negb (dede.DecodeTargetIndication_eqb dti
                          dede.DecodeTargetNotPresent) in
      (mkTarget (dt_embedded t) (dt_chain t) (dt_active t) v,
       inl (mkFDR v dti))
  end.

#[export] Instance collaborators : Collaborators := {
  SelectorDecisionCache := Cache;
  GetDecision := cache_GetDecision;
  AddForwarded := cache_AddForwarded;
  AddDropped := cache_AddDropped;
  FrameChain := Chain;
  NewFrameChain := chain_New;
  FrameChain_OnFrame := chain_OnFrame;
  BeginUpdateActive := chain_BeginUpdateActive;
  EndUpdateActive := chain_EndUpdateActive;
  DecodeTarget := Target_;
  NewDecodeTarget := target_New;
  embedded := dt_embedded;
  Active := dt_active;
  UpdateActive := target_UpdateActive;
  DecodeTarget_OnFrame := target_OnFrame
}.

(** A [Marshal] that succeeds with an empty payload and one that fails. *)
Definition marshalOk (_ : dede.DependencyDescriptorExtension)
  : list Byte.byte + error := inl [].


End specmodel.

(* ================================================================= *)
(** ** More of WrapAround: seeding and sequences of calls *)

Module wraparound.

Import utils.

Section Generic.

Variable T : number.
Variable ET : extendedNumber.

(** [Seed]: the receiver keeps its own [fullRange]. *)
Definition Seed (w from : WrapAround) : WrapAround :=
  let w1 := set_initialized (initialized from) w in
  let w2 := set_start (start from) w1 in
  let w3 := set_highest (highest from) w2 in
  let w4 := set_cycles (cycles from) w3 in
  updateExtendedHighest ET w4.

Definition GetStart (w : WrapAround) : Z := start w.

Definition GetHighest (w : WrapAround) : Z := highest w.

(** A call of one of the methods that change an extender. *)
Inductive call : Set :=
| CallUpdate (val : Z)
| CallRollbackRestart (ev : Z)
| CallResetHighest (ev : Z).

Definition apply (w : WrapAround) (c : call) : WrapAround :=
  match c with
  | CallUpdate val => fst (Update T ET w val)
  | CallRollbackRestart ev => RollbackRestart T ET w ev
  | CallResetHighest ev => ResetHighest T ET w ev
  end.

Definition run (w : WrapAround) (cs : list call) : WrapAround :=
  fold_left apply cs w.

(** The argument of a call is a value of its type. *)
Definition typed (c : call) : Prop :=
  match c with
  | CallUpdate val => inT T val
  | CallRollbackRestart ev => inET ET ev
  | CallResetHighest ev => inET ET ev
  end.

(** [extendedHighest] is [cycles + highest], as [updateExtendedHighest]
    leaves it. *)
Definition coherent (w : WrapAround) : Prop :=
  extendedHighest w = getExtendedHighest ET (cycles w) (highest w).

(** What every sequence of calls keeps: the fields hold values of their
    types, [extendedHighest] is [cycles + highest], and [cycles] is a
    multiple of the raw range. *)
Definition sound (w : WrapAround) : Prop :=
  wf T ET w /\ coherent w /\ aligned T w.

End Generic.

End wraparound.

(* ================================================================= *)
(** ** More of the selector: CheckSync *)

Module checksync.

Import buffer videolayerselector.
Local Open Scope string_scope.
Local Open Scope list_scope.
Local Open Scope Z_scope.

Section CheckSync.

Context {C : Collaborators}.

(** [DecodeTarget.Valid], of the decode target's file: it reads the decode
    target and, through its pointer, the chain that protects it. *)
Variable Valid : list FrameChain -> DecodeTarget -> bool.

(** Modelled from the spec: the getters [Base.GetRequestSpatial] and
    [Base.GetTarget] of the shared layer state. *)
Definition GetRequestSpatial (d : DependencyDescriptor) : Z :=
  requestSpatial (base d).

Definition GetTarget (d : DependencyDescriptor) : VideoLayer :=
  targetLayer (base d).

(** The loop of [CheckSync] over [d.decodeTargets]: the first decode target
    that is active, at or below the target's spatial layer and valid ends
    the call, with a debug message. *)
Fixpoint matchingDecodeTarget (d : DependencyDescriptor)
    (dts : list DecodeTarget) : bool :=
  match dts with
  | [] => false
  | dt :: rest =>
      if Active dt
         && (Spatial (Layer (embedded dt)) <=? Spatial (GetTarget d))
         && Valid (chains d) dt
      then true
      else matchingDecodeTarget d rest
  end.

Definition CheckSync (d : DependencyDescriptor)
  : DependencyDescriptor * (bool * Z) :=
  let layer := GetRequestSpatial d in
  if negb (IsValid (currentLayer (base d))) then (d, (false, layer))
  else if matchingDecodeTarget d (decodeTargets d)
       then (log Debugw "checking sync, matching decode target" d,
             (true, layer))
       else (d, (false, layer)).

End CheckSync.

(** [OnFrame] leaves the embedded target index and layer of a decode target
    as they are. *)
Definition keepsEmbedded {C : Collaborators} : Prop :=
  forall cs dt efn fd,
    embedded (fst (DecodeTarget_OnFrame cs dt efn fd)) = embedded dt.

(** [IsOvershootOkay]. *)
Definition IsOvershootOkay : bool := false.

End checksync.

(* ================================================================= *)
(** ** Concrete streams *)

Module scenarios.

Import buffer videolayerselector specmodel.
Local Open Scope Z_scope.

(** Three decode targets, highest first: target 2 is layer (1,1), target 1
    is layer (0,1), target 0 is layer (0,0). *)
Definition targets : list DependencyDescriptorDecodeTarget :=
  [ mkDDDT 2 (mkLayer 1 1); mkDDDT 1 (mkLayer 0 1); mkDDDT 0 (mkLayer 0 0) ].

(** Two chains: targets 0 and 1 are protected by chain 0, target 2 by
    chain 1. *)
Definition structure2 : dede.FrameDependencyStructure :=
  dede.mkFDS 3 2 [0; 0; 1].


Definition allSwitch : list dede.DecodeTargetIndication :=
  [dede.DecodeTargetSwitch; dede.DecodeTargetSwitch; dede.DecodeTargetSwitch].

Definition allRequired : list dede.DecodeTargetIndication :=
  [dede.DecodeTargetRequired; dede.DecodeTargetRequired;
   dede.DecodeTargetRequired].

(** A keyframe with the structure attached and every target active. *)
Definition keyframe (efn : Z) (s : dede.FrameDependencyStructure)
  : packet.ExtPacket :=
  packet.mkExtPacket false 1 true (mkLayer 1 1)
    (Some (packet.mkExtDD
             (dede.mkDD true (efn mod 65536)
                        (dede.mkFDT 1 1 allSwitch [] [0; 0])
                        (Some s) (Some 7))
             targets true true true efn)).

(** The same keyframe, arriving without decode target indications. *)
Definition keyframeNoDti (efn : Z) (s : dede.FrameDependencyStructure)
  : packet.ExtPacket :=
  packet.mkExtPacket false 1 true (mkLayer 1 1)
    (Some (packet.mkExtDD
             (dede.mkDD true (efn mod 65536)
                        (dede.mkFDT 1 1 [] [] [0; 0])
                        (Some s) (Some 7))
             targets true true true efn)).

(** A delta frame that refers to the frames [efn - diff] and continues
    both chains from the frame [efn - chainDiff]. *)
Definition delta (efn : Z) (diffs : list Z) (chainDiff : Z)
    (dtis : list dede.DecodeTargetIndication) : packet.ExtPacket :=
  packet.mkExtPacket false 2 false (mkLayer 1 1)
    (Some (packet.mkExtDD
             (dede.mkDD true (efn mod 65536)
                        (dede.mkFDT 1 1 dtis diffs [chainDiff; chainDiff])
                        None None)
             targets false false true efn)).

(** A packet without dependency descriptor. *)
Definition plain : packet.ExtPacket :=
  packet.mkExtPacket false 3 false (mkLayer 0 0) None.

Definition base0 : Base :=
  mkBase InvalidLayer InvalidLayer (mkLayer 1 1) (mkLayer 1 1) 1 InvalidLayer.

(** The fresh selector, with target layer (1,1). *)
Definition d0 : DependencyDescriptor :=
  NewDependencyDescriptor base0 (NewSelectorDecisionCache 256 80).

(** The state after [Select], the state before on a panic. *)
Definition after (d : DependencyDescriptor) (p : packet.ExtPacket)
  : DependencyDescriptor :=
  match Select marshalOk d p 0 with
  | Some (d1, _) => d1
  | None => d
  end.

(** Locked at (1,1) by the keyframe 100. *)
Definition d100 : DependencyDescriptor := after d0 (keyframe 100 structure2).

(** Then frame 101, which refers to 100. *)
Definition d101 : DependencyDescriptor :=
  after d100 (delta 101 [1] 1 allRequired).

(** Frame 102 arrives after frame 101 without indications and is dropped. *)
Definition d102 : DependencyDescriptor :=
  after d101 (delta 102 [1] 1 []).

(** Frame 400 after frame 101, to which it refers: the window now starts
    at 224. *)
Definition d400 : DependencyDescriptor :=
  after d101 (delta 400 [299] 299 allRequired).

(** The subscriber lowers the target to (0,1) while locked at (1,1). *)
Definition d101low : DependencyDescriptor :=
  set_base (mkBase (currentLayer (base d101)) (previousLayer (base d101))
                   (mkLayer 0 1) (maxLayer (base d101))
                   (requestSpatial (base d101)) (maxSeenLayer (base d101)))
           d101.



(** The fresh selector after the update with the structure of two
    chains. *)
Definition dTwo : DependencyDescriptor :=
  match updateDependencyStructure d0 (Some structure2) targets with
  | Some d1 => d1
  | None => d0
  end.

End scenarios.

(* ================================================================= *)
(** ** Properties of WrapAround *)

Module utils_facts.

Import utils.

(** Unfold the conversions and hand the modular arithmetic, whose moduli are
    literals once the widths are known, to [lia]. *)
Ltac widths T ET :=
  destruct T, ET;
  unfold proper, inT, inET, toT, toET, bits, ebits in *;
  cbn [bits ebits] in *.

Ltac modular := Z.div_mod_to_equations; lia.

Lemma fullRange_New (T : number) (ET : extendedNumber) :
  proper T ET -> toET ET (Z.shiftl 1 (bits T)) = 2 ^ bits T.
Proof. widths T ET; intros H; try lia; reflexivity. Qed.

Lemma half_fullRange (T : number) :
  Z.shiftr (2 ^ bits T) 1 = 2 ^ bits T / 2.
Proof. destruct T; reflexivity. Qed.

Lemma toT_half (T : number) : toT T (2 ^ bits T / 2) = 2 ^ bits T / 2.
Proof. destruct T; reflexivity. Qed.

Lemma toET_inT (T : number) (ET : extendedNumber) (v : Z) :
  bits T <= ebits ET -> inT T v -> toET ET v = v.
Proof.
  intros Hle Hv. unfold toET. apply Z.mod_small.
  unfold inT in Hv. split; [lia|].
  apply Z.lt_le_trans with (2 ^ bits T); [lia|].
  apply Z.pow_le_mono_r; [lia | exact Hle].
Qed.

Lemma bits_le (T : number) (ET : extendedNumber) : bits T <= ebits ET.
Proof. destruct T, ET; cbn; lia. Qed.

(** The total span as the code computes it is the plain difference as long
    as the subtraction and the increment do not wrap. *)
Lemma totalNum_exact (T : number) (ET : extendedNumber) (w : WrapAround) :
  wf T ET w -> start w <= extendedHighest w ->
  extendedHighest w - start w + 1 < 2 ^ ebits ET ->
  totalNum ET w = extendedHighest w - start w + 1.
Proof.
  intros (_ & Hs & _ & _ & He) Hle Hlt.
  unfold totalNum, GetExtendedHighest, GetExtendedStart.
  rewrite (toET_inT T ET (start w) (bits_le T ET) Hs).
  unfold toET, inT, inET in *.
  rewrite (Z.mod_small (extendedHighest w - start w)) by lia.
  apply Z.mod_small. lia.
Qed.

(** *** The invariant behind the round trip *)

Lemma aligned_New (T : number) (ET : extendedNumber) :
  aligned T (NewWrapAround T ET).
Proof. destruct T, ET; split; reflexivity. Qed.

Lemma extended_aligned (T : number) (ET : extendedNumber) (c v : Z) :
  c mod 2 ^ bits T = 0 -> inT T v ->
  getExtendedHighest ET c v mod 2 ^ bits T = v.
Proof.
  intros Hc Hv. unfold getExtendedHighest.
  widths T ET; modular.
Qed.

Lemma toET_aligned (T : number) (ET : extendedNumber) (a : Z) :
  a mod 2 ^ bits T = 0 -> toET ET a mod 2 ^ bits T = 0.
Proof. intros Ha. widths T ET; modular. Qed.

Lemma sub_aligned (T : number) (a b : Z) :
  a mod 2 ^ bits T = 0 -> b mod 2 ^ bits T = 0 ->
  (a - b) mod 2 ^ bits T = 0 /\ (a + b) mod 2 ^ bits T = 0.
Proof. intros Ha Hb. destruct T; cbn [bits] in *; modular. Qed.

Lemma maybeAdjustStart_aligned (T : number) (ET : extendedNumber)
    (w : WrapAround) (v : Z) :
  aligned T w -> inT T v ->
  aligned T (fst (maybeAdjustStart T ET w v))
  /\ ExtendedVal (snd (maybeAdjustStart T ET w v)) mod 2 ^ bits T = v.
Proof.
  intros [Hc Hf] Hv. unfold maybeAdjustStart.
  pose proof (toET_aligned T ET _ (proj1 (sub_aligned T _ _ Hc Hf))) as Hsub.
  destruct (totalNum ET w >? Z.shiftr (fullRange w) 1).
  - cbn [fst snd ExtendedVal]. split; [split; assumption|].
    destruct (isWrapBack ET w v (highest w));
      apply extended_aligned; assumption.
  - destruct (toT T (v - start w) >? toT T (Z.shiftr (fullRange w) 1)).
    + destruct (isWrapBack ET w v (highest w)); cbn [fst snd ExtendedVal].
      * split; [split; cbn; assumption|].
        apply extended_aligned; [reflexivity | assumption].
      * split; [split; cbn; assumption|].
        apply extended_aligned; assumption.
    + cbn [fst snd ExtendedVal]. split; [split; assumption|].
      destruct (isWrapBack ET w v (highest w));
        apply extended_aligned; assumption.
Qed.

Lemma Update_aligned (T : number) (ET : extendedNumber)
    (w : WrapAround) (v : Z) :
  aligned T w -> inT T v ->
  aligned T (fst (Update T ET w v))
  /\ ExtendedVal (snd (Update T ET w v)) mod 2 ^ bits T = v.
Proof.
  intros Hal Hv. unfold Update.
  destruct (negb (initialized w)).
  - cbn [fst snd ExtendedVal]. split; [exact Hal|].
    rewrite (toET_inT T ET v (bits_le T ET) Hv).
    apply Z.mod_small. exact Hv.
  - destruct (toT T (v - highest w) >? toT T (Z.shiftr (fullRange w) 1)).
    + apply maybeAdjustStart_aligned; assumption.
    + destruct Hal as [Hc Hf].
      pose proof (toET_aligned T ET _ (proj2 (sub_aligned T _ _ Hc Hf))) as Hadd.
      destruct (v <? highest w); cbn [fst snd ExtendedVal];
        (split; [split; cbn; assumption|]);
        cbn; apply extended_aligned; assumption.
Qed.

Lemma updates_round_trip (T : number) (ET : extendedNumber) (vals : list Z) :
  forall w, aligned T w -> Forall (inT T) vals ->
    Forall2 (fun x r => ExtendedVal r mod 2 ^ bits T = x) vals
            (snd (updates T ET w vals)).
Proof.
  induction vals as [|v vs IH]; intros w Hal Hvals; cbn [updates].
  - constructor.
  - inversion Hvals as [|? ? Hv Hvs]; subst.
    destruct (Update_aligned T ET w v Hal Hv) as [Hal1 Hext].
    destruct (Update T ET w v) as [w1 r] eqn:HU.
    specialize (IH w1 Hal1 Hvs).
    destruct (updates T ET w1 vs) as [w2 rs].
    constructor; assumption.
Qed.

(** *** In-order updates *)

Lemma Update_in_order_eq (T : number) (ET : extendedNumber)
    (w : WrapAround) (raw : Z) :
  proper T ET -> wf T ET w -> initialized w = true -> inT T raw ->
  (raw - highest w) mod 2 ^ bits T <= 2 ^ bits T / 2 ->
  Update T ET w raw =
    let c := if raw <? highest w then toET ET (cycles w + 2 ^ bits T)
             else cycles w in
    (mkWrapAround (fullRange w) true (start w) raw c (toET ET (c + raw)),
     mkResult false 0 (extendedHighest w) (toET ET (c + raw))).
Proof.
  intros Hp (Hf & _) Hi Hraw Hgap.
  destruct w as [f i s h c e]. cbn in Hf, Hi, Hgap |- *. subst i.
  rewrite (fullRange_New T ET Hp) in Hf. subst f.
  unfold Update. cbn [initialized negb fullRange highest].
  rewrite half_fullRange, toT_half.
  fold (toT T (raw - h)) in Hgap.
  destruct (toT T (raw - h) >? 2 ^ bits T / 2) eqn:Hcmp; [lia|].
  unfold updateExtendedHighest, getExtendedHighest.
  destruct (raw <? h); cbn -[toET Z.pow];
    rewrite (toET_inT T ET raw (bits_le T ET) Hraw); reflexivity.
Qed.

(** C4. On an initialized extender, a raw value whose gap
    [(raw - highest) mod 2^W] is at most [2^W / 2] is in order: [Update]
    adds [2^W] to [cycles] exactly when [raw < highest], sets
    [highest = raw] and returns [extended = cycles + raw] (the additions are
    those of the extended type, and exact when they do not overflow it); no
    restart is reported. With [highest = 65530] and [cycles = 0], the raw
    values 65534, 65535, 0, 1 give 65534, 65535, 65536, 65537 without a
    restart. *)
Theorem Update_in_order :
  forall (T : number) (ET : extendedNumber) (w : WrapAround) (raw : Z),
    proper T ET -> wf T ET w -> initialized w = true -> inT T raw ->
    (raw - highest w) mod 2 ^ bits T <= 2 ^ bits T / 2 ->
    let w' := fst (Update T ET w raw) in
    let r := snd (Update T ET w raw) in
    cycles w' = (if raw <? highest w then toET ET (cycles w + 2 ^ bits T)
                 else cycles w)
    /\ highest w' = raw
    /\ ExtendedVal r = toET ET (cycles w' + raw)
    /\ extendedHighest w' = ExtendedVal r
    /\ IsRestart r = false
    /\ start w' = start w /\ initialized w' = true
    /\ (cycles w + 2 ^ bits T + raw < 2 ^ ebits ET ->
        cycles w' = cycles w + (if raw <? highest w then 2 ^ bits T else 0)
        /\ ExtendedVal r = cycles w' + raw)
    /\ (forall w0 : WrapAround,
          wf uint16 ET w0 -> initialized w0 = true ->
          highest w0 = 65530 -> cycles w0 = 0 ->
          map (fun x => (ExtendedVal x, IsRestart x))
              (snd (updates uint16 ET w0 [65534; 65535; 0; 1]))
          = [(65534, false); (65535, false); (65536, false); (65537, false)]).
Proof.
  intros T ET w raw Hp Hwf Hi Hraw Hgap w' r. subst w' r.
  rewrite (Update_in_order_eq T ET w raw Hp Hwf Hi Hraw Hgap).
  cbn [fst snd cycles highest ExtendedVal extendedHighest IsRestart start
       initialized].
  repeat split.
  - destruct Hwf as (_ & _ & _ & Hc & _).
    destruct (raw <? highest w); unfold toET; unfold inT, inET in *;
      rewrite ?Z.add_0_r; try reflexivity.
    apply Z.mod_small. lia.
  - destruct Hwf as (_ & _ & _ & Hc & _).
    unfold inT, inET in *.
    destruct (raw <? highest w); unfold toET.
    + rewrite (Z.mod_small (cycles w + 2 ^ bits T)) by lia.
      apply Z.mod_small. lia.
    + apply Z.mod_small. lia.
  - intros w0 (Hf0 & _) Hi0 Hh0 Hc0.
    destruct w0 as [f0 i0 s0 h0 c0 e0]. cbn in Hf0, Hi0, Hh0, Hc0. subst.
    destruct ET; reflexivity.
Qed.

(** The hypotheses of [Update_in_order] at a wrap: the extender that has
    seen 65530 and 65535 receives 0. *)
Lemma Update_in_order_witness :
  let w := mkWrapAround 65536 true 65530 65535 0 65535 in
  (proper uint16 ext_uint64 /\ wf uint16 ext_uint64 w
   /\ initialized w = true /\ inT uint16 0
   /\ (0 - highest w) mod 2 ^ bits uint16 <= 2 ^ bits uint16 / 2)
  /\ cycles (fst (Update uint16 ext_uint64 w 0)) = 65536
  /\ ExtendedVal (snd (Update uint16 ext_uint64 w 0)) = 65536.
Proof.
  intros w.
  assert (Hp : proper uint16 ext_uint64) by (unfold proper; cbn; lia).
  assert (Hwf : wf uint16 ext_uint64 w)
    by (unfold wf, inT, inET; cbn; repeat split; lia).
  assert (Hr : inT uint16 0) by (unfold inT; cbn; lia).
  assert (Hg : (0 - highest w) mod 2 ^ bits uint16 <= 2 ^ bits uint16 / 2)
    by (cbn; lia).
  split; [repeat split; assumption || apply Hwf|].
  pose proof (Update_in_order uint16 ext_uint64 w 0 Hp Hwf eq_refl Hr Hg) as H.
  cbv zeta in H. destruct H as (Hc & _ & He & _).
  split; [exact Hc|]. rewrite He, Hc. reflexivity.
Defined.

(** *** Stragglers *)

(** C5. When the span [extended_highest - extended_start + 1], computed in
    the extended type as the code does, exceeds [2^W / 2], the out-of-order
    path leaves [start], [highest], [cycles] and [extended_highest] (the
    whole state) as they were; the extended value it returns uses the
    temporary [cycles - 2^W], wrapping below zero in the extended type, when
    [raw] is in the upper half of the range and [highest] in the lower half,
    and [cycles] otherwise. On an initialized extender [Update] takes that
    path for every raw value whose gap exceeds [2^W / 2]. *)
Theorem straggler_no_mutation :
  forall (T : number) (ET : extendedNumber) (w : WrapAround) (raw : Z),
    proper T ET -> wf T ET w -> inT T raw ->
    totalNum ET w > 2 ^ bits T / 2 ->
    let tmp := if (2 ^ bits T / 2 <=? raw) && (highest w <? 2 ^ bits T / 2)
               then toET ET (cycles w - 2 ^ bits T)
               else cycles w in
    maybeAdjustStart T ET w raw
    = (w, mkResult false 0 (extendedHighest w) (toET ET (tmp + raw)))
    /\ (initialized w = true ->
        (raw - highest w) mod 2 ^ bits T > 2 ^ bits T / 2 ->
        Update T ET w raw = maybeAdjustStart T ET w raw
        /\ fst (Update T ET w raw) = w
        /\ ExtendedVal (snd (Update T ET w raw)) = toET ET (tmp + raw)).
Proof.
  intros T ET w raw Hp Hwf Hraw Hspan tmp.
  pose proof Hwf as (Hf & _ & Hh & _).
  assert (Hm : maybeAdjustStart T ET w raw
               = (w, mkResult false 0 (extendedHighest w) (toET ET (tmp + raw)))).
  { unfold maybeAdjustStart.
    rewrite Hf, (fullRange_New T ET Hp), half_fullRange.
    destruct (totalNum ET w >? 2 ^ bits T / 2) eqn:Hcmp; [|lia].
    unfold isWrapBack, getExtendedHighest.
    rewrite Hf, (fullRange_New T ET Hp), half_fullRange.
    rewrite (toET_inT T ET raw (bits_le T ET) Hraw).
    rewrite (toET_inT T ET (highest w) (bits_le T ET) Hh).
    subst tmp.
    rewrite (andb_comm (2 ^ bits T / 2 <=? raw)).
    rewrite (Z.geb_leb raw). reflexivity. }
  split; [exact Hm|].
  intros Hi Hgap.
  assert (HU : Update T ET w raw = maybeAdjustStart T ET w raw).
  { unfold Update. rewrite Hi. cbn [negb].
    rewrite Hf, (fullRange_New T ET Hp), half_fullRange, toT_half.
    fold (toT T (raw - highest w)) in Hgap.
    destruct (toT T (raw - highest w) >? 2 ^ bits T / 2) eqn:Hcmp; [|lia].
    reflexivity. }
  rewrite HU, Hm. repeat split.
Qed.

(** The hypotheses of [straggler_no_mutation] after a wrap: [highest = 5]
    in the second cycle and the straggler 65533 of the first. *)
Lemma straggler_no_mutation_witness :
  let w := mkWrapAround 65536 true 100 5 65536 65541 in
  (proper uint16 ext_uint64 /\ wf uint16 ext_uint64 w /\ inT uint16 65533
   /\ totalNum ext_uint64 w > 2 ^ bits uint16 / 2)
  /\ Update uint16 ext_uint64 w 65533
     = (w, mkResult false 0 65541 65533).
Proof.
  intros w.
  assert (Hp : proper uint16 ext_uint64) by (unfold proper; cbn; lia).
  assert (Hwf : wf uint16 ext_uint64 w)
    by (unfold wf, inT, inET; cbn; repeat split; lia).
  assert (Hr : inT uint16 65533) by (unfold inT; cbn; lia).
  assert (Hs : totalNum ext_uint64 w > 2 ^ bits uint16 / 2) by (cbn; lia).
  split; [repeat split; assumption || apply Hwf|].
  pose proof (straggler_no_mutation uint16 ext_uint64 w 65533 Hp Hwf Hr Hs) as H.
  cbv zeta in H. destruct H as (Hm & HU).
  destruct (HU eq_refl) as (HU1 & _); [cbn; lia|].
  rewrite HU1, Hm. reflexivity.
Defined.

(** *** Round trip *)

(** C9. Whatever sequence of raw values a fresh extender is updated with,
    every returned extended value reduces to its raw value modulo [2^W]:
    on the first call, in order, for a straggler, on a restart and when the
    value lies before the start, also when the temporary [cycles - 2^W]
    wraps below zero in the extended type. *)
Theorem extended_round_trip :
  forall (T : number) (ET : extendedNumber) (vals : list Z),
    Forall (inT T) vals ->
    Forall2 (fun x r => ExtendedVal r mod 2 ^ bits T = x) vals
            (snd (updates T ET (NewWrapAround T ET) vals)).
Proof.
  intros T ET vals Hvals.
  apply updates_round_trip; [apply aligned_New | exact Hvals].
Qed.

(** The hypothesis of [extended_round_trip] on a sequence that wraps,
    receives a straggler whose temporary cycles value wraps below zero
    (65533 after 3 with [cycles = 0]) and restarts. *)
Lemma extended_round_trip_witness :
  Forall (inT uint16) [3; 65533; 5; 40000; 2; 65535]
  /\ Forall2 (fun x r => ExtendedVal r mod 2 ^ bits uint16 = x)
             [3; 65533; 5; 40000; 2; 65535]
             (snd (updates uint16 ext_uint32 (NewWrapAround uint16 ext_uint32)
                           [3; 65533; 5; 40000; 2; 65535])).
Proof.
  assert (H : Forall (inT uint16) [3; 65533; 5; 40000; 2; 65535])
    by (repeat constructor; unfold inT; cbn; lia).
  split; [exact H | exact (extended_round_trip uint16 ext_uint32 _ H)].
Defined.

End utils_facts.

(* ================================================================= *)
(** ** Properties of the dependency-descriptor selector *)

Module selector_facts.

Import buffer videolayerselector.
Local Open Scope list_scope.
Local Open Scope Z_scope.

Section Facts.

Context {C : Collaborators}.

Lemma VideoLayer_eqb_eq (a b : VideoLayer) :
  VideoLayer_eqb a b = true <-> a = b.
Proof.
  destruct a as [s1 t1], b as [s2 t2]. unfold VideoLayer_eqb. cbn.
  rewrite andb_true_iff, !Z.eqb_eq.
  split; [intros [-> ->]; reflexivity | intros H; inversion H; auto].
Qed.

Lemma Base_eta (b : Base) :
  b = mkBase (currentLayer b) (previousLayer b) (targetLayer b) (maxLayer b)
             (requestSpatial b) (maxSeenLayer b).
Proof. destruct b; reflexivity. Qed.

Lemma frame_refl (d : DependencyDescriptor) : frame d d.
Proof. repeat split. Qed.

Lemma frame_trans (d1 d2 d3 : DependencyDescriptor) :
  frame d1 d2 -> frame d2 d3 -> frame d1 d3.
Proof.
  intros (A1 & A2 & A3) (B1 & B2 & B3).
  repeat split; congruence.
Qed.

(** *** What the updates leave alone *)

Lemma updateDependencyStructure_frame d s dts d1 :
  updateDependencyStructure d s dts = Some d1 ->
  frame d d1 /\ decisions d1 = decisions d.
Proof.
  unfold updateDependencyStructure. destruct s as [s|]; [|discriminate].
  destruct (newTargets s _ dts) as [[ts ls]|]; [|discriminate].
  intros H. inversion H; subst. repeat split.
Qed.

Lemma updateActiveDecodeTargets_frame d m :
  frame d (updateActiveDecodeTargets d m)
  /\ decisions (updateActiveDecodeTargets d m) = decisions d
  /\ structure (updateActiveDecodeTargets d m) = structure d.
Proof.
  unfold updateActiveDecodeTargets.
  destruct (updateActiveAll m _ (decodeTargets d)) as [ts cs].
  repeat split.
Qed.

Lemma beforeTargets_frame d ddwdt d3 :
  beforeTargets d ddwdt = Some d3 ->
  frame d d3 /\ decisions d3 = decisions d.
Proof.
  unfold beforeTargets.
  destruct (if packet.StructureUpdated ddwdt then _ else _) as [d1|] eqn:H1;
    [|discriminate].
  assert (F1 : frame d d1 /\ decisions d1 = decisions d).
  { destruct (packet.StructureUpdated ddwdt).
    - eapply updateDependencyStructure_frame; eassumption.
    - inversion H1; subst. split; [apply frame_refl | reflexivity]. }
  destruct (if packet.ActiveDecodeTargetsUpdated ddwdt then _ else _)
    as [d2|] eqn:H2; [|discriminate].
  assert (F2 : frame d1 d2 /\ decisions d2 = decisions d1).
  { destruct (packet.ActiveDecodeTargetsUpdated ddwdt).
    - destruct (dede.ActiveDecodeTargetsBitmask _); [|discriminate].
      inversion H2; subst.
      destruct (updateActiveDecodeTargets_frame d1 z) as (A & B & _).
      split; assumption.
    - inversion H2; subst. split; [apply frame_refl | reflexivity]. }
  intros H. inversion H; subst.
  destruct F1 as [F1 D1], F2 as [F2 D2].
  split; [|cbn; congruence].
  eapply frame_trans; [exact F1|].
  eapply frame_trans; [exact F2|]. repeat split.
Qed.

(** *** The decodability loop *)

Lemma isDecodable_spec cache efn diffs :
  isDecodable cache efn diffs = true
  <-> (forall fdiff, In fdiff diffs -> fdiff <> 0 ->
         fst (GetDecision cache (toU64 (efn - toU64 fdiff)))
         <> selectorDecisionDropped).
Proof.
  induction diffs as [|x xs IH]; cbn [isDecodable].
  - split; [intros _ ? []|reflexivity].
  - destruct (Z.eqb_spec x 0) as [->|Hx].
    + rewrite IH. split.
      * intros H f [<-|Hin] Hf; [congruence | auto].
      * intros H f Hin Hf. apply H; [right; exact Hin | exact Hf].
    + destruct (fst (GetDecision cache (toU64 (efn - toU64 x)))) eqn:Hd;
        cbn [isDropped].
      2:{ split; [discriminate|].
          intros H. exfalso. apply (H x); [left; reflexivity| exact Hx |].
          exact Hd. }
      all: rewrite IH; split;
        [ intros H f [<-|Hin] Hf; [rewrite Hd; discriminate | auto]
        | intros H f Hin Hf; apply H; [right; exact Hin | exact Hf] ].
Qed.

(** *** The two outcomes of [Select] *)

Section Outcomes.

Variable Marshal : dede.DependencyDescriptorExtension -> list Byte.byte + error.

Lemma Select_inv d p l d' r :
  Select Marshal d p l = Some (d', r) ->
  (r = notSelected d /\ frame d d'
   /\ (decisions d' = decisions d
       \/ exists ddwdt, packet.DependencyDescriptor p = Some ddwdt
                        /\ decisions d'
                           = AddDropped (decisions d) (packet.ExtFrameNum ddwdt)))
  \/ (exists ddwdt d3 dts chosen dti, selectedAs Marshal d p d' r ddwdt d3 dts chosen dti).
Proof.
  intros H. unfold Select in H. cbv zeta in H.
  change (if IsValid (currentLayer (base d))
          then set_IsRelevant true zeroResult else zeroResult)
    with (notSelected d) in H.
  destruct (packet.DependencyDescriptor p) as [ddwdt|] eqn:Hdd.
  2:{ inversion H; subst. left.
      split; [reflexivity | split; [repeat split | left; reflexivity]]. }
  destruct (GetDecision (decisions d) (packet.ExtFrameNum ddwdt))
    as [sd [err|]] eqn:Hgd.
  { destruct sd; inversion H; subst; left;
      (split; [reflexivity | split; [repeat split | left; reflexivity]]). }
  assert (Hcont :
    sd <> selectorDecisionDropped ->
    match
      (if packet.StructureUpdated ddwdt
       then updateDependencyStructure d
              (dede.AttachedStructure (packet.Descriptor ddwdt))
              (packet.DecodeTargets ddwdt)
       else Some d)
    with
    | Some d1 => True
    | None => False
    end).
  { intros Hsd.
    destruct (if packet.StructureUpdated ddwdt then _ else _);
      [exact I|].
    destruct sd; try discriminate H. congruence. }
  destruct (beforeTargets d ddwdt) as [d3|] eqn:Hbt.
  2:{ unfold beforeTargets in Hbt.
      destruct sd;
        try (inversion H; subst; left;
             split; [reflexivity | split; [repeat split | left; reflexivity]]);
        destruct (if packet.StructureUpdated ddwdt then _ else _) as [d1|];
        try discriminate H;
        destruct (if packet.ActiveDecodeTargetsUpdated ddwdt then _ else _)
          as [d2|]; discriminate. }
  destruct (beforeTargets_frame d ddwdt d3 Hbt) as [(Fb & Fa & Fp) Fd].
  pose proof Hbt as Hbt0.
  unfold beforeTargets in Hbt.
  destruct (if packet.StructureUpdated ddwdt then _ else _) as [d1|];
    [|discriminate].
  destruct (if packet.ActiveDecodeTargetsUpdated ddwdt then _ else _) as [d2|];
    [|discriminate].
  injection Hbt as Hbt. rewrite Hbt in H. clear Hcont Hbt.
  assert (Hkeep :
    sd = selectorDecisionDropped \/ sd <> selectorDecisionDropped)
    by (destruct sd; (left; reflexivity) || (right; discriminate)).
  destruct Hkeep as [->|Hsd].
  { inversion H; subst. left.
      split; [reflexivity | split; [repeat split | left; reflexivity]]. }
  assert (H' :
    match
      findHighestDecodeTarget (chains d3) (targetLayer (base d3))
        (packet.ExtFrameNum ddwdt)
        (dede.FrameDependencies (packet.Descriptor ddwdt)) (decodeTargets d3)
    with
    | (dts, FrameDetectionError err) =>
        Some (set_decisions
                (AddDropped
                   (decisions
                      (log Debugw "drop packet for frame detection error"
                           (set_decodeTargets dts d3)))
                   (packet.ExtFrameNum ddwdt))
                (log Debugw "drop packet for frame detection error"
                     (set_decodeTargets dts d3)), notSelected d)
    | (dts, Highest highestDecodeTarget dti) => _
    end = Some (d', r)) by (destruct sd; try congruence; exact H).
  clear H. rename H' into H.
  destruct (findHighestDecodeTarget _ _ _ _ _) as [dts fr] eqn:Hfind.
  destruct fr as [err|chosen dti].
  { inversion H; subst. left.
    split; [reflexivity | split; [cbn; repeat split; assumption|]].
    right. exists ddwdt.
    split; [reflexivity | cbn; rewrite Fd; reflexivity]. }
  destruct (Target chosen <? 0) eqn:Ht.
  { inversion H; subst. left.
    split; [reflexivity | split; [cbn; repeat split; assumption|]].
    right. exists ddwdt.
    split; [reflexivity | cbn; rewrite Fd; reflexivity]. }
  destruct (dede.DecodeTargetIndication_eqb dti dede.DecodeTargetNotPresent)
    eqn:Hdti.
  { inversion H; subst. left.
    split; [reflexivity | split; [cbn; repeat split; assumption|]].
    right. exists ddwdt.
    split; [reflexivity | cbn; rewrite Fd; reflexivity]. }
  cbn [decisions set_decodeTargets] in H.
  destruct (isDecodable (decisions d3) (packet.ExtFrameNum ddwdt) _) eqn:Hdec;
    cbn [negb] in H.
  2:{ inversion H; subst. left.
      split; [reflexivity | split; [cbn; repeat split; assumption|]].
      right. exists ddwdt.
      split; [reflexivity | cbn; rewrite Fd; reflexivity]. }
  right. exists ddwdt, d3, dts, chosen, dti.
  assert (Hdti' : dti <> dede.DecodeTargetNotPresent)
    by (intros ->; discriminate Hdti).
  rewrite Fd in Hdec.
  unfold selectedAs. cbv zeta. rewrite Hgd. cbn [fst snd].
  cbn [base set_decodeTargets] in H. rewrite Fb in H.
  destruct (VideoLayer_eqb (currentLayer (base d)) (Layer chosen)) eqn:Hsw;
    cbn [negb] in H |- *.
  - apply VideoLayer_eqb_eq in Hsw.
    destruct (Marshal (rewrittenExtension (set_decodeTargets dts d3)
                         (packet.Descriptor ddwdt))) eqn:Hm;
      destruct (packet.Integrity ddwdt);
      inversion H; subst; clear H;
      unfold rewrittenExtension in *; cbn in *;
      rewrite ?Fa, ?Fp, ?Fb, ?Fd in *; rewrite ?Hm;
      rewrite <- ?Hsw;
      repeat split; try assumption; try reflexivity; try lia;
      try apply Base_eta;
      unfold notSelected; destruct (IsValid (currentLayer (base d)));
      reflexivity.
  - destruct (IsValid (currentLayer (base d))) eqn:Hv; cbn in H;
      match type of H with
      | context [Marshal ?e] => destruct (Marshal e) eqn:Hm
      end;
      destruct (packet.Integrity ddwdt);
      inversion H; subst; clear H;
      unfold rewrittenExtension in *; cbn in *;
      rewrite ?Fa, ?Fp, ?Fb, ?Fd in *; rewrite ?Hm;
      repeat split; try assumption; try reflexivity; try lia;
      unfold notSelected; rewrite Hv; reflexivity.
Qed.

(** A packet that reaches the decodability check and passes it is
    selected: nothing after the check returns early or panics. *)
Lemma Select_selected d p l ddwdt d3 dts chosen dti :
  let efn := packet.ExtFrameNum ddwdt in
  let fd := dede.FrameDependencies (packet.Descriptor ddwdt) in
  packet.DependencyDescriptor p = Some ddwdt ->
  snd (GetDecision (decisions d) efn) = None ->
  fst (GetDecision (decisions d) efn) <> selectorDecisionDropped ->
  beforeTargets d ddwdt = Some d3 ->
  findHighestDecodeTarget (chains d3) (targetLayer (base d3)) efn fd
                          (decodeTargets d3)
  = (dts, Highest chosen dti) ->
  0 <= Target chosen ->
  dti <> dede.DecodeTargetNotPresent ->
  isDecodable (decisions d) efn (dede.FrameDiffs fd) = true ->
  exists d' r, Select Marshal d p l = Some (d', r) /\ IsSelected r = true.
Proof.
  intros efn fd Hdd Herr Hsd Hbt Hfind Ht Hdti Hdec. subst efn fd.
  destruct (beforeTargets_frame d ddwdt d3 Hbt) as [_ Fd].
  unfold Select. cbv zeta. rewrite Hdd.
  destruct (GetDecision (decisions d) (packet.ExtFrameNum ddwdt))
    as [sd [err|]]; cbn [fst snd] in Herr, Hsd; [discriminate|].
  unfold beforeTargets in Hbt.
  destruct (if packet.StructureUpdated ddwdt then _ else _) as [d1|];
    [|discriminate].
  destruct (if packet.ActiveDecodeTargetsUpdated ddwdt then _ else _) as [d2|];
    [|discriminate].
  injection Hbt as Hbt. rewrite Hbt.
  assert (Ht' : (Target chosen <? 0) = false) by (apply Z.ltb_ge; exact Ht).
  assert (Hdti' :
    dede.DecodeTargetIndication_eqb dti dede.DecodeTargetNotPresent = false)
    by (destruct dti; try reflexivity; congruence).
  destruct sd; try congruence;
    rewrite Hfind, Ht', Hdti';
    cbn [decisions set_decodeTargets]; rewrite Fd, Hdec; cbn [negb];
    (destruct (negb (VideoLayer_eqb _ (Layer chosen)));
     [ destruct (negb (IsValid _)); cbn | ];
     match goal with
     | |- context [Marshal ?e] => destruct (Marshal e)
     end;
     destruct (packet.Integrity ddwdt);
     eexists; eexists; split; reflexivity).
Qed.

End Outcomes.

Lemma notSelected_IsSelected d : IsSelected (notSelected d) = false.
Proof. unfold notSelected. destruct (IsValid _); reflexivity. Qed.

Lemma selected_cases Marshal d p l d' r :
  Select Marshal d p l = Some (d', r) -> IsSelected r = true ->
  exists ddwdt d3 dts chosen dti,
    selectedAs Marshal d p d' r ddwdt d3 dts chosen dti.
Proof.
  intros H Hsel. destruct (Select_inv Marshal d p l d' r H) as [(Hr & _)|Hs].
  - rewrite Hr, notSelected_IsSelected in Hsel. discriminate.
  - exact Hs.
Qed.

(** *** Decodability *)

(** C1. A packet with a dependency descriptor is selected only if none of
    the frames it refers to, [efn - diff] for the nonzero [diff]s of its
    frame diffs (computed in [uint64] as the code does), has the decision
    Dropped in the selector's cache. Any other answer for a referenced
    frame, Unknown or the error of a frame that is too old, lets the packet
    through: a packet that reaches the check with no dropped reference is
    selected. *)
Theorem no_forward_without_decodability :
  forall (Marshal : dede.DependencyDescriptorExtension -> list Byte.byte + error)
         (d : DependencyDescriptor) (p : packet.ExtPacket) (l : Z)
         (ddwdt : packet.ExtDependencyDescriptor),
    packet.DependencyDescriptor p = Some ddwdt ->
    let efn := packet.ExtFrameNum ddwdt in
    let fd := dede.FrameDependencies (packet.Descriptor ddwdt) in
    (forall d' r,
        Select Marshal d p l = Some (d', r) -> IsSelected r = true ->
        forall fdiff, In fdiff (dede.FrameDiffs fd) -> fdiff <> 0 ->
          fst (GetDecision (decisions d) (toU64 (efn - toU64 fdiff)))
          <> selectorDecisionDropped)
    /\ (forall d3 dts chosen dti,
          snd (GetDecision (decisions d) efn) = None ->
          fst (GetDecision (decisions d) efn) <> selectorDecisionDropped ->
          beforeTargets d ddwdt = Some d3 ->
          findHighestDecodeTarget (chains d3) (targetLayer (base d3)) efn fd
                                  (decodeTargets d3)
          = (dts, Highest chosen dti) ->
          0 <= Target chosen ->
          dti <> dede.DecodeTargetNotPresent ->
          (forall fdiff, In fdiff (dede.FrameDiffs fd) -> fdiff <> 0 ->
             fst (GetDecision (decisions d) (toU64 (efn - toU64 fdiff)))
             <> selectorDecisionDropped) ->
          exists d' r,
            Select Marshal d p l = Some (d', r) /\ IsSelected r = true).
Proof.
  intros Marshal d p l ddwdt Hdd efn fd. split.
  - intros d' r H Hsel.
    destruct (selected_cases Marshal d p l d' r H Hsel)
      as (ddwdt' & d3 & dts & chosen & dti & Hs).
    unfold selectedAs in Hs. cbv zeta in Hs.
    destruct Hs as (Hdd' & _ & _ & _ & _ & _ & _ & Hdec & _).
    rewrite Hdd in Hdd'. injection Hdd' as <-.
    apply isDecodable_spec. exact Hdec.
  - intros d3 dts chosen dti Herr Hsd Hbt Hfind Ht Hdti Hrefs.
    eapply Select_selected; try eassumption.
    apply isDecodable_spec. exact Hrefs.
Qed.

(** *** Early returns *)

(** C6. A packet whose extended frame number is recorded as Dropped, or is
    too old for the cache ([GetDecision] returns an error), is not selected,
    and the call changes nothing but the log: no decision is written. *)
Theorem dropped_or_too_old_not_selected :
  forall (Marshal : dede.DependencyDescriptorExtension -> list Byte.byte + error)
         (d : DependencyDescriptor) (p : packet.ExtPacket) (l : Z)
         (ddwdt : packet.ExtDependencyDescriptor),
    packet.DependencyDescriptor p = Some ddwdt ->
    GetDecision (decisions d) (packet.ExtFrameNum ddwdt)
      = (selectorDecisionDropped, None)
    \/ snd (GetDecision (decisions d) (packet.ExtFrameNum ddwdt)) <> None ->
    exists msg,
      Select Marshal d p l = Some (log Debugw msg d, notSelected d)
      /\ IsSelected (notSelected d) = false
      /\ decisions (log Debugw msg d) = decisions d.
Proof.
  intros Marshal d p l ddwdt Hdd Hcase.
  unfold Select. cbv zeta. rewrite Hdd.
  fold (notSelected d).
  destruct (GetDecision (decisions d) (packet.ExtFrameNum ddwdt))
    as [sd [err|]]; cbn [snd] in Hcase.
  - destruct sd; eexists; (split; [reflexivity|]);
      (split; [apply notSelected_IsSelected | reflexivity]).
  - destruct Hcase as [Heq|Hne]; [|congruence].
    injection Heq as ->.
    eexists; split; [reflexivity|].
    split; [apply notSelected_IsSelected | reflexivity].
Qed.

(** *** Switching *)

(** C7. For a selected packet, with [chosen] the decode target the loop
    stopped at: if its layer differs from [current_layer], [Select] reports
    switching, reports resuming exactly when [current_layer] was Invalid,
    saves the old [current_layer] and active bitmask as the previous ones,
    sets [current_layer] to the chosen layer and recomputes the active
    bitmask for the new [current_layer] from the packet's decode targets;
    if the layer is [current_layer], none of these change. *)
Theorem switch_on_layer_change :
  forall (Marshal : dede.DependencyDescriptorExtension -> list Byte.byte + error)
         (d : DependencyDescriptor) (p : packet.ExtPacket) (l : Z)
         (d' : DependencyDescriptor) (r : VideoLayerSelectorResult),
    Select Marshal d p l = Some (d', r) -> IsSelected r = true ->
    exists ddwdt d3 dts chosen dti,
      packet.DependencyDescriptor p = Some ddwdt
      /\ beforeTargets d ddwdt = Some d3
      /\ findHighestDecodeTarget (chains d3) (targetLayer (base d3))
           (packet.ExtFrameNum ddwdt)
           (dede.FrameDependencies (packet.Descriptor ddwdt)) (decodeTargets d3)
         = (dts, Highest chosen dti)
      /\ (Layer chosen <> currentLayer (base d) ->
          IsSwitching r = true
          /\ (IsResuming r = true <-> currentLayer (base d) = InvalidLayer)
          /\ previousLayer (base d') = currentLayer (base d)
          /\ previousActiveDecodeTargetsBitmask d' = activeDecodeTargetsBitmask d
          /\ currentLayer (base d') = Layer chosen
          /\ activeDecodeTargetsBitmask d'
             = GetActiveDecodeTargetBitmask (currentLayer (base d'))
                                            (packet.DecodeTargets ddwdt)
          /\ IsResuming r = negb (IsValid (currentLayer (base d))))
      /\ (Layer chosen = currentLayer (base d) ->
          IsSwitching r = false /\ IsResuming r = false
          /\ base d' = base d
          /\ previousActiveDecodeTargetsBitmask d'
             = previousActiveDecodeTargetsBitmask d
          /\ activeDecodeTargetsBitmask d' = activeDecodeTargetsBitmask d).
Proof.
  intros Marshal d p l d' r H Hsel.
  destruct (selected_cases Marshal d p l d' r H Hsel)
    as (ddwdt & d3 & dts & chosen & dti & Hs).
  exists ddwdt, d3, dts, chosen, dti.
  unfold selectedAs in Hs. cbv zeta in Hs.
  destruct Hs as (Hdd & _ & _ & Hbt & Hfind & _ & _ & _ & Hb & Hp & Ha & _ & _
                  & _ & _ & Hr).
  repeat (split; [assumption|]).
  destruct (VideoLayer_eqb (currentLayer (base d)) (Layer chosen)) eqn:Hsw;
    cbn [negb] in *.
  - apply VideoLayer_eqb_eq in Hsw. split; [congruence|].
    intros _. rewrite Hr. cbn.
    repeat split; try assumption.
    rewrite Hb, <- Hsw. symmetry. apply Base_eta.
  - split.
    2:{ intros Heq. rewrite Heq in Hsw.
        assert (VideoLayer_eqb (currentLayer (base d)) (currentLayer (base d))
                = true) by (apply VideoLayer_eqb_eq; reflexivity).
        congruence. }
    intros _. rewrite Hr, Hb. cbn.
    repeat split; try assumption.
    + intros Hres. unfold IsValid in Hres.
      rewrite negb_involutive in Hres.
      apply VideoLayer_eqb_eq. exact Hres.
    + intros Hinv. unfold IsValid. rewrite negb_involutive.
      apply VideoLayer_eqb_eq. exact Hinv.
Qed.

(** *** Marshal failure *)


(** *** Frame of a call that does not select *)

(** C10, as amended. A call that returns [selected = false] leaves
    [current_layer], [previous_layer] (the whole of [Base]), the active
    bitmask and the previous active bitmask as they were: of the selector's
    fields only the stored structure, the chains, the decode-target list and
    the decision cache may differ afterwards. *)
Theorem not_selected_keeps_layers :
  forall (Marshal : dede.DependencyDescriptorExtension -> list Byte.byte + error)
         (d : DependencyDescriptor) (p : packet.ExtPacket) (l : Z)
         (d' : DependencyDescriptor) (r : VideoLayerSelectorResult),
    Select Marshal d p l = Some (d', r) -> IsSelected r = false ->
    currentLayer (base d') = currentLayer (base d)
    /\ previousLayer (base d') = previousLayer (base d)
    /\ activeDecodeTargetsBitmask d' = activeDecodeTargetsBitmask d
    /\ previousActiveDecodeTargetsBitmask d'
       = previousActiveDecodeTargetsBitmask d
    /\ base d' = base d.
Proof.
  intros Marshal d p l d' r H Hsel.
  destruct (Select_inv Marshal d p l d' r H) as [(_ & (Fb & Fa & Fp) & _)|Hs].
  - rewrite Fb. repeat split; assumption.
  - destruct Hs as (ddwdt & d3 & dts & chosen & dti & Hs).
    unfold selectedAs in Hs. cbv zeta in Hs.
    destruct Hs as (_ & _ & _ & _ & _ & _ & _ & _ & _ & _ & _ & _ & _ & _ & _
                    & Hr).
    rewrite Hr in Hsel. discriminate.
Qed.

(** *** Rollback *)

Lemma Rollback_fields d :
  currentLayer (base (Rollback d)) = previousLayer (base d)
  /\ activeDecodeTargetsBitmask (Rollback d)
     = previousActiveDecodeTargetsBitmask d
  /\ decisions (Rollback d) = decisions d.
Proof. repeat split. Qed.

(** C2, as amended. After [Select(p)] has reported switching, [Rollback]
    puts [current_layer] and the active bitmask back to their values before
    the call; after a call that did not switch it puts them to the values
    saved by the last switch, [previous_layer] and the previous bitmask as
    they were before the call. [Rollback] leaves the decision cache
    unchanged. *)
Theorem Rollback_after_Select :
  forall (Marshal : dede.DependencyDescriptorExtension -> list Byte.byte + error)
         (d : DependencyDescriptor) (p : packet.ExtPacket) (l : Z)
         (d' : DependencyDescriptor) (r : VideoLayerSelectorResult),
    Select Marshal d p l = Some (d', r) ->
    (IsSwitching r = true ->
       currentLayer (base (Rollback d')) = currentLayer (base d)
       /\ activeDecodeTargetsBitmask (Rollback d')
          = activeDecodeTargetsBitmask d)
    /\ (IsSwitching r = false ->
          currentLayer (base (Rollback d')) = previousLayer (base d)
          /\ activeDecodeTargetsBitmask (Rollback d')
             = previousActiveDecodeTargetsBitmask d)
    /\ decisions (Rollback d') = decisions d'.
Proof.
  intros Marshal d p l d' r H.
  destruct (Rollback_fields d') as (Rc & Ra & Rd).
  rewrite Rc, Ra, Rd.
  destruct (Select_inv Marshal d p l d' r H) as [(Hr & (Fb & Fa & Fp) & _)|Hs].
  - rewrite Hr, Fb, Fp. unfold notSelected.
    destruct (IsValid _); cbn; repeat split; discriminate.
  - destruct Hs as (ddwdt & d3 & dts & chosen & dti & Hs).
    unfold selectedAs in Hs. cbv zeta in Hs.
    destruct Hs as (_ & _ & _ & _ & _ & _ & _ & _ & Hb & Hp & _ & _ & _ & _ & _
                    & Hr).
    rewrite Hr, Hb, Hp. cbn.
    destruct (negb (VideoLayer_eqb _ _)); repeat split; discriminate.
Qed.


(** *** Structure update *)

Lemma length_newChains (n : Z) : List.length (newChains n) = Z.to_nat n.
Proof. unfold newChains. rewrite length_map, length_seq. reflexivity. Qed.

Lemma protectingChain_inv s dt c ls :
  protectingChain s (Z.to_nat (dede.NumChains s)) dt = Some (c, ls) ->
  c = chainOf s dt
  /\ ls = (if outOfRange s dt then [outOfRangeEntry] else []).
Proof.
  unfold protectingChain, chainOf, outOfRange.
  destruct (dede.NumChains s >? 0) eqn:Hn; cbn [andb].
  2:{ intros H. inversion H; subst. split; reflexivity. }
  rewrite Z2Nat.id by lia.
  destruct (index _ (Target dt)) as [chainIdx|]; [|discriminate].
  destruct (chainIdx >=? dede.NumChains s).
  - intros H. inversion H; subst. split; reflexivity.
  - destruct (chainIdx <? 0); [discriminate|].
    intros H. inversion H; subst. split; reflexivity.
Qed.


Lemma newTargets_inv s dts : forall ts ls,
  newTargets s (Z.to_nat (dede.NumChains s)) dts = Some (ts, ls) ->
  ts = map (fun dt => NewDecodeTarget dt (chainOf s dt)) dts
  /\ ls = map (fun _ => outOfRangeEntry) (filter (outOfRange s) dts).
Proof.
  induction dts as [|dt rest IH]; cbn [newTargets]; intros ts ls H.
  - inversion H; subst. split; reflexivity.
  - destruct (protectingChain s _ dt) as [[c l1]|] eqn:Hp; [|discriminate].
    destruct (newTargets s _ rest) as [[ts1 l2]|]; [|discriminate].
    inversion H; subst.
    destruct (protectingChain_inv s dt c l1 Hp) as [-> ->].
    destruct (IH ts1 l2 eq_refl) as [-> ->].
    cbn [map filter]. destruct (outOfRange s dt); split; reflexivity.
Qed.



End Facts.


(** *** The properties on the concrete streams *)

Import specmodel scenarios.

(** The hypotheses of [no_forward_without_decodability]: frame 401 refers
    to frame 400 (forwarded), frame 399 (unknown) and frame 201 (too old);
    it is selected. *)
Lemma no_forward_without_decodability_witness :
  let p := delta 401 [1; 2; 200; 0] 1 allRequired in
  exists ddwdt d' r,
    packet.DependencyDescriptor p = Some ddwdt
    /\ Select marshalOk d400 p 0 = Some (d', r) /\ IsSelected r = true
    /\ GetDecision (decisions d400) 399 = (selectorDecisionUnknown, None)
    /\ GetDecision (decisions d400) 201
       = (selectorDecisionMissing, Some "too old"%string)
    /\ (forall fdiff, In fdiff [1; 2; 200; 0] -> fdiff <> 0 ->
          fst (GetDecision (decisions d400) (toU64 (401 - toU64 fdiff)))
          <> selectorDecisionDropped).
Proof.
  intros p.
  destruct (packet.DependencyDescriptor p) as [ddwdt|] eqn:Hdd;
    [|discriminate].
  assert (E : Select marshalOk d400 p 0
              = Some (after d400 p,
                      mkVLSResult true true false false true (Some [])))
    by (vm_compute; reflexivity).
  exists ddwdt, (after d400 p), (mkVLSResult true true false false true (Some [])).
  split; [reflexivity|]. split; [exact E|]. split; [reflexivity|].
  split; [vm_compute; reflexivity|]. split; [vm_compute; reflexivity|].
  pose proof (proj1 (no_forward_without_decodability marshalOk d400 p 0 ddwdt Hdd)
                _ _ E eq_refl) as H.
  injection Hdd as <-. exact H.
Defined.

(** The hypotheses of [dropped_or_too_old_not_selected]: frame 102 was
    dropped and arrives again; frame 100 arrives when the window starts at
    224. *)
Lemma dropped_or_too_old_not_selected_witness :
  (exists msg,
      Select marshalOk d102 (delta 102 [1] 1 allRequired) 0
      = Some (log Debugw msg d102, notSelected d102)
      /\ IsSelected (notSelected d102) = false
      /\ decisions (log Debugw msg d102) = decisions d102)
  /\ GetDecision (decisions d102) 102 = (selectorDecisionDropped, None)
  /\ (exists msg,
        Select marshalOk d400 (delta 100 [] 1 allRequired) 0
        = Some (log Debugw msg d400, notSelected d400)
        /\ IsSelected (notSelected d400) = false
        /\ decisions (log Debugw msg d400) = decisions d400)
  /\ snd (GetDecision (decisions d400) 100) = Some "too old"%string.
Proof.
  assert (H1 : GetDecision (decisions d102) 102 = (selectorDecisionDropped, None))
    by (vm_compute; reflexivity).
  assert (H2 : snd (GetDecision (decisions d400) 100) = Some "too old"%string)
    by (vm_compute; reflexivity).
  split.
  { exact (dropped_or_too_old_not_selected marshalOk d102
             (delta 102 [1] 1 allRequired) 0 _ eq_refl (or_introl H1)). }
  split; [exact H1|]. split; [|exact H2].
  refine (dropped_or_too_old_not_selected marshalOk d400
            (delta 100 [] 1 allRequired) 0 _ eq_refl (or_intror _)).
  change (snd (GetDecision (decisions d400) 100) <> None).
  rewrite H2. discriminate.
Defined.

(** The hypotheses of [switch_on_layer_change]: the target was lowered to
    (0,1) while locked at (1,1); the next frame switches down. *)
Lemma switch_on_layer_change_witness :
  let p := delta 102 [1] 1 allSwitch in
  let r := mkVLSResult true true true false false (Some []) in
  Select marshalOk d101low p 0 = Some (after d101low p, r)
  /\ IsSelected r = true
  /\ currentLayer (base d101low) = mkLayer 1 1
  /\ currentLayer (base (after d101low p)) = mkLayer 0 1
  /\ activeDecodeTargetsBitmask (after d101low p) = Some 3
  /\ exists chosen,
       Layer chosen = mkLayer 0 1
       /\ (Layer chosen <> currentLayer (base d101low) ->
           IsSwitching r = true
           /\ (IsResuming r = true
               <-> currentLayer (base d101low) = InvalidLayer)
           /\ previousLayer (base (after d101low p))
              = currentLayer (base d101low)).
Proof.
  intros p r.
  assert (E : Select marshalOk d101low p 0 = Some (after d101low p, r))
    by (vm_compute; reflexivity).
  split; [exact E|]. split; [reflexivity|].
  split; [vm_compute; reflexivity|].
  assert (Hc : currentLayer (base (after d101low p)) = mkLayer 0 1)
    by (vm_compute; reflexivity).
  split; [exact Hc|]. split; [vm_compute; reflexivity|].
  destruct (switch_on_layer_change marshalOk d101low p 0 _ r E eq_refl)
    as (ddwdt & d3 & dts & chosen & dti & _ & _ & _ & Hsw & Hsame).
  exists chosen.
  assert (Hne : Layer chosen <> currentLayer (base d101low)).
  { intros Heq. destruct (Hsame Heq) as (Hs & _). discriminate Hs. }
  destruct (Hsw Hne) as (A & B & Cp & _ & Hcur & _).
  split; [rewrite <- Hcur; exact Hc|].
  intros _. split; [exact A|]. split; [exact B | exact Cp].
Defined.


(** C10 as stated fails: a keyframe without indications is dropped after
    its structure has been stored, so the structure is modified as well as
    the chains, the decode-target list and the decision cache. *)
Lemma not_selected_keeps_layers_counterexample :
  let p := keyframeNoDti 100 structure2 in
  let r := mkVLSResult false false false false false None in
  Select marshalOk d0 p 0 = Some (after d0 p, r)
  /\ IsSelected r = false
  /\ structure d0 = None
  /\ structure (after d0 p) = Some structure2
  /\ structure (after d0 p) <> structure d0.
Proof.
  intros p r.
  split; [vm_compute; reflexivity|]. split; [reflexivity|].
  split; [reflexivity|]. split; [vm_compute; reflexivity|].
  vm_compute. discriminate.
Qed.

(** The hypotheses of [not_selected_keeps_layers]: frame 102 arrives
    without indications and is dropped. *)
Lemma not_selected_keeps_layers_witness :
  let p := delta 102 [1] 1 [] in
  let r := mkVLSResult false true false false false None in
  Select marshalOk d101 p 0 = Some (d102, r)
  /\ IsSelected r = false
  /\ GetDecision (decisions d102) 102 = (selectorDecisionDropped, None)
  /\ currentLayer (base d102) = currentLayer (base d101)
  /\ previousLayer (base d102) = previousLayer (base d101)
  /\ activeDecodeTargetsBitmask d102 = activeDecodeTargetsBitmask d101
  /\ previousActiveDecodeTargetsBitmask d102
     = previousActiveDecodeTargetsBitmask d101
  /\ base d102 = base d101.
Proof.
  intros p r.
  assert (E : Select marshalOk d101 p 0 = Some (d102, r))
    by (vm_compute; reflexivity).
  split; [exact E|]. split; [reflexivity|].
  split; [vm_compute; reflexivity|].
  exact (not_selected_keeps_layers marshalOk d101 p 0 d102 r E eq_refl).
Defined.

(** C2 as stated fails: frame 101 is selected at the layer the selector is
    locked at, (1,1) with the bitmask 7, and the call does not switch;
    [Rollback] then puts back what the keyframe had saved, the Invalid layer
    and no bitmask. *)
Lemma Rollback_after_Select_counterexample :
  let p := delta 101 [1] 1 allRequired in
  let r := mkVLSResult true true false false true (Some []) in
  Select marshalOk d100 p 0 = Some (d101, r)
  /\ currentLayer (base d100) = mkLayer 1 1
  /\ activeDecodeTargetsBitmask d100 = Some 7
  /\ currentLayer (base (Rollback d101)) = InvalidLayer
  /\ activeDecodeTargetsBitmask (Rollback d101) = None
  /\ (currentLayer (base (Rollback d101)),
      activeDecodeTargetsBitmask (Rollback d101))
     <> (currentLayer (base d100), activeDecodeTargetsBitmask d100).
Proof.
  intros p r.
  split; [vm_compute; reflexivity|]. split; [vm_compute; reflexivity|].
  split; [vm_compute; reflexivity|]. split; [vm_compute; reflexivity|].
  split; [vm_compute; reflexivity|].
  vm_compute. discriminate.
Qed.

(** The hypothesis of [Rollback_after_Select]: the keyframe switches from
    Invalid to (1,1), and [Rollback] returns to Invalid and to no bitmask. *)
Lemma Rollback_after_Select_witness :
  let p := keyframe 100 structure2 in
  let r := mkVLSResult true true true true true (Some []) in
  Select marshalOk d0 p 0 = Some (d100, r)
  /\ IsSwitching r = true
  /\ currentLayer (base d100) = mkLayer 1 1
  /\ currentLayer (base (Rollback d100)) = currentLayer (base d0)
  /\ activeDecodeTargetsBitmask (Rollback d100) = activeDecodeTargetsBitmask d0
  /\ decisions (Rollback d100) = decisions d100.
Proof.
  intros p r.
  assert (E : Select marshalOk d0 p 0 = Some (d100, r))
    by (vm_compute; reflexivity).
  split; [exact E|]. split; [reflexivity|].
  split; [vm_compute; reflexivity|].
  destruct (Rollback_after_Select marshalOk d0 p 0 d100 r E) as (Hsw & _ & Hd).
  destruct (Hsw eq_refl) as (Hc & Ha).
  exact (conj Hc (conj Ha Hd)).
Defined.



End selector_facts.

(* ================================================================= *)
(** ** More properties of WrapAround *)

Module wraparound_facts.

Import utils utils_facts wraparound.

Ltac compare_all :=
  repeat match goal with
  | |- context [?a >? ?b] => rewrite (Z.gtb_ltb a b)
  | |- context [?a >=? ?b] => rewrite (Z.geb_leb a b)
  end;
  repeat match goal with
  | |- context [?a <? ?b] => destruct (Z.ltb_spec a b)
  | |- context [?a <=? ?b] => destruct (Z.leb_spec a b)
  end.

Lemma Update_restart_eq (T : number) (ET : extendedNumber)
    (w : WrapAround) (raw : Z) :
  proper T ET -> wf T ET w -> initialized w = true -> inT T raw ->
  IsRestart (snd (Update T ET w raw)) = true ->
  let half := 2 ^ bits T / 2 in
  let wb := (highest w <? half) && (raw >=? half) in
  ((raw - highest w) mod 2 ^ bits T > half
   /\ (raw - start w) mod 2 ^ bits T > half
   /\ totalNum ET w <= half)
  /\ Update T ET w raw
     = (mkWrapAround (2 ^ bits T) true raw (highest w)
          (if wb then 2 ^ bits T else cycles w)
          (if wb then toET ET (2 ^ bits T + highest w) else extendedHighest w),
        mkResult true
          (if raw >? start w then toET ET (2 ^ bits T + start w) else start w)
          (if wb then toET ET (2 ^ bits T + highest w) else extendedHighest w)
          (toET ET ((if wb then 0 else cycles w) + raw))).
Proof.
  intros Hp (Hf & Hs & Hh & Hc & He) Hi Hraw.
  destruct w as [f i s h c e].
  cbn [fullRange initialized start highest cycles extendedHighest] in *.
  subst i. rewrite (fullRange_New T ET Hp) in Hf. subst f.
  unfold Update, maybeAdjustStart.
  cbn [initialized negb fullRange highest start cycles extendedHighest].
  rewrite half_fullRange, toT_half.
  destruct (toT T (raw - h) >? 2 ^ bits T / 2) eqn:Hg.
  2:{ destruct (raw <? h); cbn; discriminate. }
  destruct (totalNum ET (mkWrapAround (2 ^ bits T) true s h c e)
            >? 2 ^ bits T / 2) eqn:Ht.
  { cbn. discriminate. }
  destruct (toT T (raw - s) >? 2 ^ bits T / 2) eqn:Hst.
  2:{ cbn. discriminate. }
  intros _. cbv zeta.
  apply Z.gtb_lt in Hg, Hst. rewrite Z.gtb_ltb in Ht. apply Z.ltb_ge in Ht.
  unfold toT in Hg, Hst.
  split; [repeat split; lia|].
  unfold isWrapBack, updateExtendedHighest, getExtendedHighest.
  cbn [fullRange initialized start highest cycles extendedHighest set_cycles
       set_extendedHighest].
  rewrite half_fullRange.
  rewrite !(toET_inT T ET raw (bits_le T ET) Hraw),
          !(toET_inT T ET h (bits_le T ET) Hh),
          !(toET_inT T ET s (bits_le T ET) Hs).
  destruct ((h <? 2 ^ bits T / 2) && (raw >=? 2 ^ bits T / 2)); reflexivity.
Qed.

Lemma Update_out_of_order_eq (T : number) (ET : extendedNumber)
    (w : WrapAround) (raw : Z) :
  proper T ET -> wf T ET w -> initialized w = true -> inT T raw ->
  (raw - highest w) mod 2 ^ bits T > 2 ^ bits T / 2 ->
  IsRestart (snd (Update T ET w raw)) = false ->
  let half := 2 ^ bits T / 2 in
  let wb := (highest w <? half) && (raw >=? half) in
  Update T ET w raw
  = (w, mkResult false 0 (extendedHighest w)
          (toET ET ((if wb then toET ET (cycles w - 2 ^ bits T) else cycles w)
                    + raw))).
Proof.
  intros Hp (Hf & Hs & Hh & Hc & He) Hi Hraw Hgap.
  destruct w as [f i s h c e].
  cbn [fullRange initialized start highest cycles extendedHighest] in *.
  subst i. rewrite (fullRange_New T ET Hp) in Hf. subst f.
  unfold Update, maybeAdjustStart.
  cbn [initialized negb fullRange highest start cycles extendedHighest].
  rewrite half_fullRange, toT_half.
  fold (toT T (raw - h)) in Hgap.
  destruct (toT T (raw - h) >? 2 ^ bits T / 2) eqn:Hg.
  2:{ rewrite Z.gtb_ltb in Hg. apply Z.ltb_ge in Hg. lia. }
  unfold isWrapBack, getExtendedHighest.
  cbn [fullRange initialized start highest cycles extendedHighest].
  rewrite half_fullRange.
  rewrite !(toET_inT T ET raw (bits_le T ET) Hraw),
          !(toET_inT T ET h (bits_le T ET) Hh).
  destruct (totalNum ET _ >? 2 ^ bits T / 2).
  { intros _. cbv zeta.
    destruct ((h <? 2 ^ bits T / 2) && (raw >=? 2 ^ bits T / 2)); reflexivity. }
  destruct (toT T (raw - s) >? 2 ^ bits T / 2).
  { destruct ((h <? 2 ^ bits T / 2) && (raw >=? 2 ^ bits T / 2));
      cbn; discriminate. }
  intros _. cbv zeta.
  destruct ((h <? 2 ^ bits T / 2) && (raw >=? 2 ^ bits T / 2)); reflexivity.
Qed.

(** Behind the highest value by more than half the range means: below it,
    or above it across the wrap; the second is the wrap-back case. *)
Lemma out_of_order_sides (T : number) (raw h : Z) :
  inT T raw -> inT T h ->
  (raw - h) mod 2 ^ bits T > 2 ^ bits T / 2 ->
  (raw < h /\ (h - raw) mod 2 ^ bits T = h - raw
   /\ (h <? 2 ^ bits T / 2) && (raw >=? 2 ^ bits T / 2) = false)
  \/ (h < raw /\ (h - raw) mod 2 ^ bits T = h - raw + 2 ^ bits T
      /\ (h <? 2 ^ bits T / 2) && (raw >=? 2 ^ bits T / 2) = true).
Proof.
  intros Hraw Hh Hg. unfold inT in *.
  destruct (Z.ltb_spec h (2 ^ bits T / 2));
    destruct (Z.geb_spec raw (2 ^ bits T / 2)); cbn [andb];
    destruct T; cbn [bits] in *; Z.div_mod_to_equations; lia.
Qed.

Lemma land_high_bits (n m ev : Z) :
  0 <= n <= m -> 0 <= ev < 2 ^ m ->
  Z.land ev (Z.lnot (2 ^ n - 1) mod 2 ^ m) = ev - ev mod 2 ^ n.
Proof.
  intros Hn Hev.
  rewrite <- (Z.land_ones (Z.lnot (2 ^ n - 1)) m) by lia.
  rewrite (Z.land_comm (Z.lnot _)), Z.land_assoc.
  rewrite (Z.land_ones ev m) by lia.
  rewrite (Z.mod_small ev (2 ^ m)) by lia.
  replace (2 ^ n - 1) with (Z.ones n) by (rewrite Z.ones_equiv; lia).
  rewrite <- Z.ldiff_land, Z.ldiff_ones_r by lia.
  rewrite Z.shiftr_div_pow2, Z.shiftl_mul_pow2 by lia.
  pose proof (Z.div_mod ev (2 ^ n)) as Hdm.
  assert (2 ^ n <> 0) by (apply Z.pow_nonzero; lia).
  specialize (Hdm ltac:(assumption)). lia.
Qed.

(** Invariants *)
Lemma ResetHighest_cycles (T : number) (ET : extendedNumber)
    (w : WrapAround) (ev : Z) :
  proper T ET -> fullRange w = toET ET (Z.shiftl 1 (bits T)) -> inET ET ev ->
  cycles (ResetHighest T ET w ev) = ev - ev mod 2 ^ bits T.
Proof.
  intros Hp Hf Hev. rewrite (fullRange_New T ET Hp) in Hf.
  unfold ResetHighest, updateExtendedHighest.
  cbn [fullRange initialized start highest cycles extendedHighest set_cycles
       set_highest set_extendedHighest].
  rewrite Hf. unfold toET at 2.
  rewrite (Z.mod_small (2 ^ bits T - 1)).
  2:{ clear - Hp. widths T ET; lia. }
  apply land_high_bits; [|exact Hev].
  clear - Hp. widths T ET; lia.
Qed.

Lemma New_sound (T : number) (ET : extendedNumber) :
  proper T ET -> sound T ET (NewWrapAround T ET).
Proof.
  intros Hp. unfold sound, wf, coherent, NewWrapAround, inT, inET.
  cbn [fullRange initialized start highest cycles extendedHighest].
  split; [|split; [destruct ET; reflexivity | apply aligned_New]].
  repeat split; try lia; widths T ET; lia.
Qed.

Lemma toET_range (ET : extendedNumber) (z : Z) : inET ET (toET ET z).
Proof. unfold inET, toET. apply Z.mod_pos_bound. destruct ET; cbn; lia. Qed.

Lemma toT_range (T : number) (z : Z) : inT T (toT T z).
Proof. unfold inT, toT. apply Z.mod_pos_bound. destruct T; cbn; lia. Qed.

Lemma fullRange_range (T : number) (ET : extendedNumber) :
  proper T ET -> inET ET (2 ^ bits T).
Proof. intros Hp. unfold inET. widths T ET; lia. Qed.

Lemma Update_coherent (T : number) (ET : extendedNumber)
    (w : WrapAround) (v : Z) :
  proper T ET -> wf T ET w -> coherent ET w -> inT T v ->
  coherent ET (fst (Update T ET w v)).
Proof.
  intros Hp Hwf Hco Hv.
  pose proof Hwf as (Hf & Hs & Hh & Hc & He).
  unfold coherent, getExtendedHighest in *.
  destruct (initialized w) eqn:Hi.
  - destruct (Z_le_gt_dec ((v - highest w) mod 2 ^ bits T) (2 ^ bits T / 2))
      as [Hg|Hg].
    + rewrite (Update_in_order_eq T ET w v Hp Hwf Hi Hv Hg). cbv zeta.
      cbn [fst highest cycles extendedHighest].
      rewrite (toET_inT T ET v (bits_le T ET) Hv). reflexivity.
    + destruct (IsRestart (snd (Update T ET w v))) eqn:Hre.
      * destruct (Update_restart_eq T ET w v Hp Hwf Hi Hv Hre) as (_ & ->).
        cbn [fst highest cycles extendedHighest].
        destruct (_ && _); [|exact Hco].
        rewrite (toET_inT T ET (highest w) (bits_le T ET) Hh). reflexivity.
      * rewrite (Update_out_of_order_eq T ET w v Hp Hwf Hi Hv Hg Hre).
        exact Hco.
  - unfold Update. rewrite Hi. reflexivity.
Qed.

Lemma Update_sound (T : number) (ET : extendedNumber) (w : WrapAround) (v : Z) :
  proper T ET -> sound T ET w -> inT T v -> sound T ET (fst (Update T ET w v)).
Proof.
  intros Hp (Hwf & Hco & Hal) Hv.
  split; [|split; [|apply Update_aligned; assumption]].
  - pose proof Hwf as (Hf & Hs & Hh & Hc & He).
    pose proof (fullRange_range T ET Hp) as HM.
    unfold wf.
    destruct (initialized w) eqn:Hi.
    + destruct (Z_le_gt_dec ((v - highest w) mod 2 ^ bits T) (2 ^ bits T / 2))
        as [Hg|Hg].
      * rewrite (Update_in_order_eq T ET w v Hp Hwf Hi Hv Hg). cbv zeta.
        cbn [fst fullRange start highest cycles extendedHighest].
        split; [|split; [|split; [|split]]];
          first [assumption | apply toET_range | idtac].
        destruct (v <? highest w); [apply toET_range | exact Hc].
      * destruct (IsRestart (snd (Update T ET w v))) eqn:Hre.
        -- destruct (Update_restart_eq T ET w v Hp Hwf Hi Hv Hre) as (_ & ->).
           cbn [fst fullRange start highest cycles extendedHighest].
           rewrite (fullRange_New T ET Hp).
           split; [|split; [|split; [|split]]];
             first [reflexivity | assumption | idtac];
             destruct (_ && _); first [apply HM | apply toET_range
                                       | apply Hc | apply He].
        -- rewrite (Update_out_of_order_eq T ET w v Hp Hwf Hi Hv Hg Hre).
           exact Hwf.
    + unfold Update. rewrite Hi.
      cbn [negb fst fullRange start highest cycles extendedHighest
           set_initialized updateExtendedHighest set_extendedHighest
           set_highest set_start].
      split; [|split; [|split; [|split]]];
        first [assumption | apply toET_range].
  - apply Update_coherent; assumption.
Qed.

Lemma RollbackRestart_sound (T : number) (ET : extendedNumber)
    (w : WrapAround) (ev : Z) :
  proper T ET -> sound T ET w -> sound T ET (RollbackRestart T ET w ev).
Proof.
  intros Hp ((Hf & Hs & Hh & Hc & He) & Hco & (Hal & Hfal)).
  unfold RollbackRestart, sound, wf, coherent, aligned.
  destruct (isWrapBack ET w (start w) (toT T ev));
    cbn [fullRange initialized start highest cycles extendedHighest set_start
         set_cycles updateExtendedHighest set_extendedHighest].
  - split; [split; [|split; [|split; [|split]]]|split; [|split]];
      first [assumption | apply toT_range | apply toET_range | reflexivity
             | idtac].
    apply toET_aligned. exact (proj1 (sub_aligned T _ _ Hal Hfal)).
  - split; [split; [|split; [|split; [|split]]]|split; [|split]];
      first [assumption | apply toT_range].
Qed.

Lemma ResetHighest_sound (T : number) (ET : extendedNumber)
    (w : WrapAround) (ev : Z) :
  proper T ET -> sound T ET w -> inET ET ev ->
  sound T ET (ResetHighest T ET w ev).
Proof.
  intros Hp ((Hf & Hs & Hh & Hc & He) & Hco & (Hal & Hfal)) Hev.
  pose proof (ResetHighest_cycles T ET w ev Hp Hf Hev) as Hc'.
  assert (Hpos : 0 < 2 ^ bits T) by (destruct T; cbn; lia).
  pose proof (Z.mod_pos_bound ev (2 ^ bits T) Hpos) as Hb.
  pose proof (Z.mod_le ev (2 ^ bits T) ltac:(unfold inET in Hev; lia) Hpos)
    as Hle.
  unfold ResetHighest, updateExtendedHighest in *.
  cbn [fullRange initialized start highest cycles extendedHighest set_cycles
       set_highest set_extendedHighest] in Hc'.
  unfold sound, wf, coherent, aligned.
  cbn [fullRange initialized start highest cycles extendedHighest set_cycles
       set_highest set_extendedHighest].
  rewrite Hc'.
  split; [split; [|split; [|split; [|split]]]|split; [|split]];
    first [assumption | apply toT_range | apply toET_range | reflexivity
           | idtac].
  - unfold inET in *. lia.
  - replace (ev - ev mod 2 ^ bits T) with (ev / 2 ^ bits T * 2 ^ bits T)
      by (pose proof (Z.div_mod ev (2 ^ bits T)); lia).
    apply Z_mod_mult.
Qed.

Lemma apply_sound (T : number) (ET : extendedNumber) (w : WrapAround)
    (c : call) :
  proper T ET -> sound T ET w -> typed T ET c -> sound T ET (apply T ET w c).
Proof.
  intros Hp Hs Hc. destruct c as [v|ev|ev]; cbn [apply typed] in *.
  - apply Update_sound; assumption.
  - apply RollbackRestart_sound; assumption.
  - apply ResetHighest_sound; assumption.
Qed.

Lemma run_sound (T : number) (ET : extendedNumber) (cs : list call) :
  proper T ET -> forall w, sound T ET w -> Forall (typed T ET) cs ->
  sound T ET (run T ET w cs).
Proof.
  intros Hp. induction cs as [|c cs IH]; intros w Hs Hall; cbn.
  - exact Hs.
  - inversion Hall; subst. apply IH; [apply apply_sound|]; assumption.
Qed.

(** X3. Whatever sequence of [Update], [RollbackRestart] and
    [ResetHighest] calls a fresh extender receives, with arguments of their
    types: the extended highest value is [cycles + highest], it reduces to
    [highest] modulo [2^W], [cycles] is a multiple of [2^W], and [highest]
    and [start] are values of the raw type. *)
Theorem calls_keep_extended_highest :
  forall (T : number) (ET : extendedNumber) (cs : list call),
    proper T ET -> Forall (typed T ET) cs ->
    let w := run T ET (NewWrapAround T ET) cs in
    extendedHighest w = toET ET (cycles w + highest w)
    /\ extendedHighest w mod 2 ^ bits T = highest w
    /\ cycles w mod 2 ^ bits T = 0
    /\ inT T (highest w) /\ inT T (start w)
    /\ fullRange w = 2 ^ bits T.
Proof.
  intros T ET cs Hp Hall w.
  destruct (run_sound T ET cs Hp _ (New_sound T ET Hp) Hall)
    as ((Hf & Hs & Hh & Hc & He) & Hco & (Hal & _)).
  fold w in Hf, Hs, Hh, Hc, He, Hco, Hal.
  unfold coherent in Hco.
  repeat split; try apply Hh; try apply Hs; try assumption.
  - rewrite Hco. unfold getExtendedHighest.
    rewrite (toET_inT T ET (highest w) (bits_le T ET) Hh). reflexivity.
  - rewrite Hco. apply extended_aligned; assumption.
  - rewrite Hf. apply fullRange_New. exact Hp.
Qed.

(** *** Steps of the extended value *)

(** X1. An in-order update of an initialized extender returns the extended
    highest value advanced by the gap [(raw - highest) mod 2^W], and makes
    it the new extended highest; the reported previous highest is the old
    one. When that sum does not overflow the extended type the returned
    value is not below the old extended highest. *)
Theorem in_order_adds_gap :
  forall (T : number) (ET : extendedNumber) (w : WrapAround) (raw : Z),
    proper T ET -> wf T ET w -> coherent ET w -> initialized w = true ->
    inT T raw -> (raw - highest w) mod 2 ^ bits T <= 2 ^ bits T / 2 ->
    let gap := (raw - highest w) mod 2 ^ bits T in
    let w' := fst (Update T ET w raw) in
    let r := snd (Update T ET w raw) in
    ExtendedVal r = toET ET (extendedHighest w + gap)
    /\ extendedHighest w' = ExtendedVal r
    /\ PreExtendedHighest r = extendedHighest w
    /\ coherent ET w'
    /\ (extendedHighest w + gap < 2 ^ ebits ET ->
        ExtendedVal r = extendedHighest w + gap
        /\ extendedHighest w <= ExtendedVal r).
Proof.
  intros T ET w raw.
  intros Hp Hwf Hco Hi Hraw Hgap gap w' r. subst gap w' r.
  rewrite (Update_in_order_eq T ET w raw Hp Hwf Hi Hraw Hgap).
  destruct Hwf as (Hf & Hs & Hh & Hc & He).
  destruct w as [f i s h c e]. unfold coherent in *.
  cbn [fst snd fullRange initialized start highest cycles extendedHighest
       ExtendedVal PreExtendedHighest] in *.
  unfold getExtendedHighest in *.
  rewrite (toET_inT T ET raw (bits_le T ET) Hraw).
  rewrite (toET_inT T ET h (bits_le T ET) Hh) in Hco.
  split; [|split; [reflexivity|split; [reflexivity|split; [reflexivity|]]]].
  - subst e. widths T ET; try lia; compare_all; Z.div_mod_to_equations; lia.
  - intros Hno. subst e.
    widths T ET; try lia; compare_all; Z.div_mod_to_equations; lia.
Qed.

Lemma in_order_adds_gap_witness :
  let w := mkWrapAround 65536 true 65530 65535 0 65535 in
  (proper uint16 ext_uint64 /\ wf uint16 ext_uint64 w
   /\ coherent ext_uint64 w /\ initialized w = true /\ inT uint16 2
   /\ (2 - highest w) mod 2 ^ bits uint16 <= 2 ^ bits uint16 / 2)
  /\ ExtendedVal (snd (Update uint16 ext_uint64 w 2)) = 65538.
Proof.
  intros w.
  assert (Hp : proper uint16 ext_uint64) by (unfold proper; cbn; lia).
  assert (Hwf : wf uint16 ext_uint64 w)
    by (unfold wf, inT, inET; cbn; repeat split; lia).
  assert (Hco : coherent ext_uint64 w) by reflexivity.
  assert (Hr : inT uint16 2) by (unfold inT; cbn; lia).
  assert (Hg : (2 - highest w) mod 2 ^ bits uint16 <= 2 ^ bits uint16 / 2)
    by (cbn; lia).
  split; [exact (conj Hp (conj Hwf (conj Hco (conj eq_refl (conj Hr Hg)))))|].
  pose proof (in_order_adds_gap uint16 ext_uint64 w 2 Hp Hwf Hco eq_refl Hr Hg)
    as H.
  cbv zeta in H. destruct H as (He & _). rewrite He. reflexivity.
Defined.

(** X2. An out-of-order update of an initialized extender (gap above
    [2^W / 2]) leaves [highest] alone and returns the value that lies
    [(highest - raw) mod 2^W] below the extended highest of the state it
    leaves, computed in the extended type; this holds for a straggler, on a
    restart and for a value before the start alike. *)
Theorem out_of_order_keeps_distance :
  forall (T : number) (ET : extendedNumber) (w : WrapAround) (raw : Z),
    proper T ET -> wf T ET w -> coherent ET w -> initialized w = true ->
    inT T raw -> (raw - highest w) mod 2 ^ bits T > 2 ^ bits T / 2 ->
    let w' := fst (Update T ET w raw) in
    let r := snd (Update T ET w raw) in
    highest w' = highest w
    /\ coherent ET w'
    /\ ExtendedVal r
       = toET ET (extendedHighest w' - (highest w - raw) mod 2 ^ bits T).
Proof.
  intros T ET w raw.
  intros Hp Hwf Hco Hi Hraw Hgap w' r. subst w' r.
  pose proof Hwf as (Hf & Hs & Hh & Hc & He).
  pose proof (out_of_order_sides T raw (highest w) Hraw Hh Hgap) as Hsides.
  unfold coherent, getExtendedHighest in Hco.
  rewrite (toET_inT T ET (highest w) (bits_le T ET) Hh) in Hco.
  destruct (IsRestart (snd (Update T ET w raw))) eqn:Hre.
  - destruct (Update_restart_eq T ET w raw Hp Hwf Hi Hraw Hre) as (_ & ->).
    unfold coherent, getExtendedHighest.
    cbn [fst snd fullRange initialized start highest cycles extendedHighest
         ExtendedVal].
    rewrite (toET_inT T ET (highest w) (bits_le T ET) Hh).
    split; [reflexivity|].
    destruct Hsides as [(Hlt & -> & ->)|(Hlt & -> & ->)];
      (split; [first [reflexivity | exact Hco]|]);
      rewrite ?Hco; unfold toET, inT, inET in *; clear Hre Hf Hco Hgap;
      widths T ET; try lia; Z.div_mod_to_equations; lia.
  - rewrite (Update_out_of_order_eq T ET w raw Hp Hwf Hi Hraw Hgap Hre).
    unfold coherent, getExtendedHighest.
    cbn [fst snd fullRange initialized start highest cycles extendedHighest
         ExtendedVal].
    rewrite (toET_inT T ET (highest w) (bits_le T ET) Hh).
    split; [reflexivity|]. split; [exact Hco|].
    destruct Hsides as [(Hlt & -> & ->)|(Hlt & -> & ->)];
      rewrite Hco; unfold toET, inT, inET in *; clear Hre Hf Hco Hgap;
      widths T ET; try lia; Z.div_mod_to_equations; lia.
Qed.

Lemma out_of_order_keeps_distance_witness :
  let w := mkWrapAround 65536 true 100 5 65536 65541 in
  (proper uint16 ext_uint64 /\ wf uint16 ext_uint64 w
   /\ coherent ext_uint64 w /\ initialized w = true /\ inT uint16 65533
   /\ (65533 - highest w) mod 2 ^ bits uint16 > 2 ^ bits uint16 / 2)
  /\ ExtendedVal (snd (Update uint16 ext_uint64 w 65533)) = 65541 - 8.
Proof.
  intros w.
  assert (Hp : proper uint16 ext_uint64) by (unfold proper; cbn; lia).
  assert (Hwf : wf uint16 ext_uint64 w)
    by (unfold wf, inT, inET; cbn; repeat split; lia).
  assert (Hco : coherent ext_uint64 w) by reflexivity.
  assert (Hr : inT uint16 65533) by (unfold inT; cbn; lia).
  assert (Hg : (65533 - highest w) mod 2 ^ bits uint16 > 2 ^ bits uint16 / 2)
    by (cbn; lia).
  split; [exact (conj Hp (conj Hwf (conj Hco (conj eq_refl (conj Hr Hg)))))|].
  pose proof (out_of_order_keeps_distance uint16 ext_uint64 w 65533
                Hp Hwf Hco eq_refl Hr Hg) as H.
  cbv zeta in H. destruct H as (_ & _ & He). rewrite He. reflexivity.
Defined.

(** X7. Updating an initialized extender with its highest value again, a
    duplicate, changes nothing and returns the extended highest value, with
    no restart. *)
Theorem duplicate_update :
  forall (T : number) (ET : extendedNumber) (w : WrapAround),
    proper T ET -> wf T ET w -> coherent ET w -> initialized w = true ->
    Update T ET w (highest w)
    = (w, mkResult false 0 (extendedHighest w) (extendedHighest w)).
Proof.
  intros T ET w.
  intros Hp Hwf Hco Hi.
  pose proof Hwf as (Hf & Hs & Hh & Hc & He).
  rewrite (Update_in_order_eq T ET w (highest w) Hp Hwf Hi Hh).
  2:{ rewrite Z.sub_diag. destruct T; cbn; lia. }
  rewrite Z.ltb_irrefl.
  destruct w as [f i s h c e]. unfold coherent, getExtendedHighest in *.
  cbn in *. subst i.
  rewrite (toET_inT T ET h (bits_le T ET) Hh) in Hco. rewrite <- Hco.
  reflexivity.
Qed.

Lemma duplicate_update_witness :
  let w := mkWrapAround 65536 true 100 5 65536 65541 in
  (proper uint16 ext_uint64 /\ wf uint16 ext_uint64 w
   /\ coherent ext_uint64 w /\ initialized w = true)
  /\ Update uint16 ext_uint64 w 5 = (w, mkResult false 0 65541 65541).
Proof.
  intros w.
  assert (Hp : proper uint16 ext_uint64) by (unfold proper; cbn; lia).
  assert (Hwf : wf uint16 ext_uint64 w)
    by (unfold wf, inT, inET; cbn; repeat split; lia).
  assert (Hco : coherent ext_uint64 w) by reflexivity.
  split; [exact (conj Hp (conj Hwf (conj Hco eq_refl)))|].
  exact (duplicate_update uint16 ext_uint64 w Hp Hwf Hco eq_refl).
Defined.

(** *** Restarts *)

(** X4. On an initialized extender [Update] moves [start] only when it
    reports a restart. A restart happens only for a value that is out of
    order with respect to both [highest] and [start] while the span seen is
    at most [2^W / 2]; it sets [start] to the value, leaves [highest] alone,
    and the reported previous extended start reduces to the old [start]. *)
Theorem restart_only_moves_start :
  forall (T : number) (ET : extendedNumber) (w : WrapAround) (raw : Z),
    proper T ET -> wf T ET w -> initialized w = true -> inT T raw ->
    let w' := fst (Update T ET w raw) in
    let r := snd (Update T ET w raw) in
    (IsRestart r = false -> start w' = start w)
    /\ (IsRestart r = true ->
        start w' = raw /\ highest w' = highest w
        /\ toT T (PreExtendedStart r) = start w
        /\ (raw - highest w) mod 2 ^ bits T > 2 ^ bits T / 2
        /\ (raw - start w) mod 2 ^ bits T > 2 ^ bits T / 2
        /\ totalNum ET w <= 2 ^ bits T / 2).
Proof.
  intros T ET w raw.
  intros Hp (Hf & Hs & Hh & Hc & He) Hi Hraw w' r. subst w' r.
  destruct w as [f i s h c e].
  cbn [fullRange initialized start highest cycles extendedHighest] in *.
  subst i. rewrite (fullRange_New T ET Hp) in Hf. subst f.
  unfold Update, maybeAdjustStart.
  cbn [initialized negb fullRange highest start cycles extendedHighest].
  rewrite half_fullRange, toT_half.
  destruct (toT T (raw - h) >? 2 ^ bits T / 2) eqn:Hg.
  2:{ destruct (raw <? h); cbn; (split; [reflexivity | discriminate]). }
  destruct (totalNum ET (mkWrapAround (2 ^ bits T) true s h c e)
            >? 2 ^ bits T / 2) eqn:Ht.
  { cbn. split; [reflexivity | discriminate]. }
  destruct (toT T (raw - s) >? 2 ^ bits T / 2) eqn:Hst.
  2:{ cbn. split; [reflexivity | discriminate]. }
  apply Z.gtb_lt in Hg, Hst. rewrite Z.gtb_ltb in Ht. apply Z.ltb_ge in Ht.
  unfold toT in Hg, Hst.
  assert (Hpre : forall b : bool,
            toT T (if b then toET ET (2 ^ bits T + toET ET s) else toET ET s) = s).
  { intros b. unfold toT, toET. destruct b; widths T ET; try lia;
      Z.div_mod_to_equations; lia. }
  destruct (isWrapBack ET _ raw h);
    cbn [fst snd IsRestart start highest set_start updateExtendedHighest
         set_extendedHighest set_cycles PreExtendedStart];
    (split; [discriminate|]); intros _;
    repeat split; try lia; apply Hpre.
Qed.

Lemma restart_only_moves_start_witness :
  let w := mkWrapAround 65536 true 10 10 0 10 in
  (proper uint16 ext_uint64 /\ wf uint16 ext_uint64 w
   /\ initialized w = true /\ inT uint16 65530)
  /\ IsRestart (snd (Update uint16 ext_uint64 w 65530)) = true
  /\ start (fst (Update uint16 ext_uint64 w 65530)) = 65530
  /\ toT uint16 (PreExtendedStart (snd (Update uint16 ext_uint64 w 65530))) = 10.
Proof.
  intros w.
  assert (Hp : proper uint16 ext_uint64) by (unfold proper; cbn; lia).
  assert (Hwf : wf uint16 ext_uint64 w)
    by (unfold wf, inT, inET; cbn; repeat split; lia).
  assert (Hr : inT uint16 65530) by (unfold inT; cbn; lia).
  split; [exact (conj Hp (conj Hwf (conj eq_refl Hr)))|].
  pose proof (restart_only_moves_start uint16 ext_uint64 w 65530
                Hp Hwf eq_refl Hr) as H.
  cbv zeta in H. destruct H as (_ & H).
  assert (Hre : IsRestart (snd (Update uint16 ext_uint64 w 65530)) = true)
    by reflexivity.
  destruct (H Hre) as (Hs & _ & Hpre & _).
  exact (conj Hre (conj Hs Hpre)).
Defined.

(** X5. [RollbackRestart] undoes a restart: when [Update] reports a restart
    on an initialized extender whose [cycles] is a multiple of [2^W] and
    whose span [extended_highest - start + 1] fits the extended type,
    calling [RollbackRestart] with the reported previous extended start
    gives back the extender as it was before the update. *)
Theorem RollbackRestart_undoes_restart :
  forall (T : number) (ET : extendedNumber) (w : WrapAround) (raw : Z),
    proper T ET -> wf T ET w -> coherent ET w -> aligned T w ->
    initialized w = true -> inT T raw ->
    extendedHighest w - start w + 1 < 2 ^ ebits ET ->
    IsRestart (snd (Update T ET w raw)) = true ->
    RollbackRestart T ET (fst (Update T ET w raw))
                    (PreExtendedStart (snd (Update T ET w raw))) = w.
Proof.
  intros T ET w raw.
  intros Hp Hwf Hco [Hal _] Hi Hraw Hspan Hre.
  destruct (Update_restart_eq T ET w raw Hp Hwf Hi Hraw Hre)
    as ((Hg & Hst & Ht) & ->).
  destruct Hwf as (Hf & Hs & Hh & Hc & He).
  destruct w as [f i s h c e]. unfold coherent in *.
  cbn [fullRange initialized start highest cycles extendedHighest] in *.
  subst i. rewrite (fullRange_New T ET Hp) in Hf. subst f.
  unfold totalNum, GetExtendedHighest, GetExtendedStart in Ht.
  cbn [fullRange initialized start highest cycles extendedHighest] in Ht.
  cbn [fst snd PreExtendedStart].
  assert (Hpre : forall b : bool,
            toT T (if b then toET ET (2 ^ bits T + s) else s) = s).
  { intros b. unfold toT, toET. destruct b; widths T ET; try lia;
      Z.div_mod_to_equations; lia. }
  assert (He' : e = c + h).
  { subst e. unfold getExtendedHighest, toET. clear Ht Hspan.
    widths T ET; try lia; Z.div_mod_to_equations; lia. }
  clear Hco.
  assert (Hcases :
    (c = 0 /\ s - 1 <= h <= s + 2 ^ bits T / 2 - 1)
    \/ (c = 2 ^ bits T /\ h <= s - 2 ^ bits T / 2 - 1)).
  { subst e. unfold toET in Ht. clear Hg Hst Hpre.
    widths T ET; try lia; Z.div_mod_to_equations; lia. }
  clear Ht Hspan.
  assert (Hgl : (raw < h /\ h - raw < 2 ^ bits T / 2)
                \/ (h < raw /\ raw - h > 2 ^ bits T / 2)).
  { clear Hst Hpre Hcases. widths T ET; try lia; Z.div_mod_to_equations; lia. }
  assert (Hsl : (raw < s /\ s - raw < 2 ^ bits T / 2)
                \/ (s < raw /\ raw - s > 2 ^ bits T / 2)).
  { clear Hg Hpre Hcases Hgl. widths T ET; try lia; Z.div_mod_to_equations; lia. }
  clear Hg Hst.
  assert (Hhalf : 2 * (2 ^ bits T / 2) = 2 ^ bits T) by (destruct T; reflexivity).
  assert (HM : toET ET (2 ^ bits T - 2 ^ bits T) = 0)
    by (rewrite Z.sub_diag; destruct ET; reflexivity).
  assert (HMh : toET ET (0 + toET ET h) = h).
  { rewrite (toET_inT T ET h (bits_le T ET) Hh). cbn.
    apply (toET_inT T ET h (bits_le T ET) Hh). }
  unfold RollbackRestart, isWrapBack, updateExtendedHighest,
    getExtendedHighest, set_start, set_cycles, set_extendedHighest.
  cbn [fullRange initialized start highest cycles extendedHighest].
  rewrite half_fullRange, Hpre,
    (toET_inT T ET raw (bits_le T ET) Hraw),
    (toET_inT T ET s (bits_le T ET) Hs).
  unfold inT in *.
  destruct (Z.ltb_spec h (2 ^ bits T / 2)) as [Hh1|Hh1];
    destruct (Z.geb_spec raw (2 ^ bits T / 2)) as [Hr1|Hr1];
    destruct (Z.ltb_spec s (2 ^ bits T / 2)) as [Hs1|Hs1];
    cbn [andb fullRange initialized start highest cycles extendedHighest];
    rewrite ?HM, ?HMh;
    try (exfalso; lia);
    try (f_equal; lia).
  assert (Hc' : c = 2 ^ bits T) by lia.
  f_equal; [lia|]. rewrite He', Hc'. unfold toET.
  apply Z.mod_small. clear - Hp Hh. widths T ET; lia.
Qed.

Lemma RollbackRestart_undoes_restart_witness :
  let w := mkWrapAround 65536 true 10 10 0 10 in
  (proper uint16 ext_uint64 /\ wf uint16 ext_uint64 w
   /\ coherent ext_uint64 w /\ aligned uint16 w
   /\ initialized w = true /\ inT uint16 65530
   /\ extendedHighest w - start w + 1 < 2 ^ ebits ext_uint64
   /\ IsRestart (snd (Update uint16 ext_uint64 w 65530)) = true)
  /\ cycles (fst (Update uint16 ext_uint64 w 65530)) = 65536
  /\ RollbackRestart uint16 ext_uint64 (fst (Update uint16 ext_uint64 w 65530))
                     (PreExtendedStart (snd (Update uint16 ext_uint64 w 65530)))
     = w.
Proof.
  intros w.
  assert (Hp : proper uint16 ext_uint64) by (unfold proper; cbn; lia).
  assert (Hwf : wf uint16 ext_uint64 w)
    by (unfold wf, inT, inET; cbn; repeat split; lia).
  assert (Hco : coherent ext_uint64 w) by reflexivity.
  assert (Hal : aligned uint16 w) by (split; reflexivity).
  assert (Hr : inT uint16 65530) by (unfold inT; cbn; lia).
  assert (Hsp : extendedHighest w - start w + 1 < 2 ^ ebits ext_uint64)
    by (cbn; lia).
  assert (Hre : IsRestart (snd (Update uint16 ext_uint64 w 65530)) = true)
    by reflexivity.
  split; [exact (conj Hp (conj Hwf (conj Hco (conj Hal (conj eq_refl
                   (conj Hr (conj Hsp Hre)))))))|].
  split; [reflexivity|].
  exact (RollbackRestart_undoes_restart uint16 ext_uint64 w 65530
           Hp Hwf Hco Hal eq_refl Hr Hsp Hre).
Defined.

(** *** ResetHighest and Seed *)

(** X6. [ResetHighest(ev)] makes the extended highest value [ev]: [highest]
    becomes [ev mod 2^W], [cycles] the rest of [ev], a multiple of [2^W];
    [start] and [initialized] are not touched. *)
Theorem ResetHighest_sets_extended_highest :
  forall (T : number) (ET : extendedNumber) (w : WrapAround) (ev : Z),
    proper T ET -> fullRange w = toET ET (Z.shiftl 1 (bits T)) -> inET ET ev ->
    let w' := ResetHighest T ET w ev in
    extendedHighest w' = ev
    /\ highest w' = ev mod 2 ^ bits T
    /\ cycles w' = ev - ev mod 2 ^ bits T
    /\ start w' = start w /\ initialized w' = initialized w
    /\ fullRange w' = fullRange w.
Proof.
  intros T ET w ev.
  intros Hp Hf Hev w'. subst w'.
  rewrite (fullRange_New T ET Hp) in Hf.
  assert (Hc : Z.land ev (toET ET (Z.lnot (toET ET (fullRange w - 1))))
               = ev - ev mod 2 ^ bits T).
  { rewrite Hf. unfold toET at 2.
    rewrite (Z.mod_small (2 ^ bits T - 1)).
    2:{ clear - Hp. widths T ET; lia. }
    apply land_high_bits; [|exact Hev].
    clear - Hp. widths T ET; lia. }
  unfold ResetHighest, updateExtendedHighest, getExtendedHighest.
  cbn [fullRange initialized start highest cycles extendedHighest set_cycles
       set_highest set_extendedHighest].
  rewrite Hc. unfold toT.
  repeat split.
  unfold toET, inET in *. clear Hc Hf.
  widths T ET; try lia; Z.div_mod_to_equations; lia.
Qed.

Lemma ResetHighest_sets_extended_highest_witness :
  let w := mkWrapAround 65536 true 10 10 0 10 in
  (proper uint16 ext_uint32
   /\ fullRange w = toET ext_uint32 (Z.shiftl 1 (bits uint16))
   /\ inET ext_uint32 200003)
  /\ extendedHighest (ResetHighest uint16 ext_uint32 w 200003) = 200003
  /\ highest (ResetHighest uint16 ext_uint32 w 200003) = 3395
  /\ cycles (ResetHighest uint16 ext_uint32 w 200003) = 196608.
Proof.
  intros w.
  assert (Hp : proper uint16 ext_uint32) by (unfold proper; cbn; lia).
  assert (Hev : inET ext_uint32 200003) by (unfold inET; cbn; lia).
  split; [exact (conj Hp (conj eq_refl Hev))|].
  pose proof (ResetHighest_sets_extended_highest uint16 ext_uint32 w 200003
                Hp eq_refl Hev) as H.
  cbv zeta in H. destruct H as (He & Hh & Hc & _).
  exact (conj He (conj Hh Hc)).
Defined.

(** X8. [Seed] copies an extender: seeding from an extender with the same
    range whose extended highest is [cycles + highest] gives that
    extender. *)
Theorem Seed_copies :
  forall (ET : extendedNumber) (w from : WrapAround),
    fullRange w = fullRange from -> coherent ET from -> Seed ET w from = from.
Proof.
  intros ET w from.
  intros Hf Hco. destruct w, from. unfold coherent, Seed in *. cbn in *.
  subst. reflexivity.
Qed.

Lemma Seed_copies_witness :
  let from := mkWrapAround 65536 true 100 5 65536 65541 in
  let w := NewWrapAround uint16 ext_uint64 in
  (fullRange w = fullRange from /\ coherent ext_uint64 from)
  /\ Seed ext_uint64 w from = from.
Proof.
  intros from w.
  assert (Hf : fullRange w = fullRange from) by reflexivity.
  assert (Hco : coherent ext_uint64 from) by reflexivity.
  split; [exact (conj Hf Hco)|].
  exact (Seed_copies ext_uint64 w from Hf Hco).
Defined.

Lemma calls_keep_extended_highest_witness :
  let cs := [CallUpdate 65530; CallUpdate 3; CallUpdate 65533;
             CallResetHighest 200003; CallUpdate 40000;
             CallRollbackRestart 65530] in
  (proper uint16 ext_uint32 /\ Forall (typed uint16 ext_uint32) cs)
  /\ extendedHighest (run uint16 ext_uint32 (NewWrapAround uint16 ext_uint32) cs)
       mod 2 ^ bits uint16
     = highest (run uint16 ext_uint32 (NewWrapAround uint16 ext_uint32) cs).
Proof.
  intros cs.
  assert (Hp : proper uint16 ext_uint32) by (unfold proper; cbn; lia).
  assert (Hall : Forall (typed uint16 ext_uint32) cs)
    by (repeat constructor; unfold inT, inET; cbn; lia).
  split; [exact (conj Hp Hall)|].
  pose proof (calls_keep_extended_highest uint16 ext_uint32 cs Hp Hall) as H.
  cbv zeta in H. destruct H as (_ & Hm & _). exact Hm.
Defined.

End wraparound_facts.

(* ================================================================= *)
(** ** More properties of the selector *)

Module selector_more_facts.

Import buffer videolayerselector selector_facts checksync.
Local Open Scope list_scope.
Local Open Scope Z_scope.

Section More.

Context {C : Collaborators}.

(** *** The loop over the decode targets *)

Lemma findHighest_length cs target efn fd dts :
  List.length (fst (findHighestDecodeTarget cs target efn fd dts))
  = List.length dts.
Proof.
  induction dts as [|dt rest IH]; cbn [findHighestDecodeTarget]; [reflexivity|].
  destruct (negb (Active dt) || _ || _).
  - destruct (findHighestDecodeTarget cs target efn fd rest) as [rest1 r].
    cbn in *. congruence.
  - destruct (DecodeTarget_OnFrame cs dt efn fd) as [dt1 [fr|err]];
      [|reflexivity].
    destruct (TargetValid fr); [reflexivity|].
    destruct (findHighestDecodeTarget cs target efn fd rest) as [rest1 r].
    cbn in *. congruence.
Qed.

Lemma findHighest_chosen cs target efn fd dts : forall dts' chosen dti,
  findHighestDecodeTarget cs target efn fd dts = (dts', Highest chosen dti) ->
  0 <= Target chosen ->
  exists dt dt1 fr,
    In dt dts /\ Active dt = true
    /\ Spatial (Layer (embedded dt)) <= Spatial target
    /\ Temporal (Layer (embedded dt)) <= Temporal target
    /\ DecodeTarget_OnFrame cs dt efn fd = (dt1, inl fr)
    /\ TargetValid fr = true /\ dti = DTI fr /\ chosen = embedded dt1
    /\ In dt1 dts'.
Proof.
  induction dts as [|dt rest IH]; cbn [findHighestDecodeTarget];
    intros dts' chosen dti H Ht.
  - inversion H; subst. cbn in Ht. lia.
  - destruct (negb (Active dt) || (Spatial (Layer (embedded dt)) >? Spatial target)
              || (Temporal (Layer (embedded dt)) >? Temporal target)) eqn:Hskip.
    + destruct (findHighestDecodeTarget cs target efn fd rest) as [rest1 r].
      inversion H; subst.
      destruct (IH rest1 chosen dti eq_refl Ht)
        as (dt0 & dt1 & fr & Hin & Hrest).
      exists dt0, dt1, fr. split; [right; exact Hin|].
      decompose [and] Hrest. repeat split; try assumption. right. assumption.
    + apply orb_false_iff in Hskip as [Hskip Htemp].
      apply orb_false_iff in Hskip as [Hact Hsp].
      apply negb_false_iff in Hact.
      rewrite Z.gtb_ltb in Hsp, Htemp. apply Z.ltb_ge in Hsp, Htemp.
      destruct (DecodeTarget_OnFrame cs dt efn fd) as [dt1 [fr|err]] eqn:Hon;
        [|discriminate].
      destruct (TargetValid fr) eqn:Hv.
      * inversion H; subst. exists dt, dt1, fr.
        repeat split; try assumption; try reflexivity; left; reflexivity.
      * destruct (findHighestDecodeTarget cs target efn fd rest) as [rest1 r].
        inversion H; subst.
        destruct (IH rest1 chosen dti eq_refl Ht)
          as (dt0 & dt2 & fr0 & Hin & Hrest).
        exists dt0, dt2, fr0. split; [right; exact Hin|].
        decompose [and] Hrest. repeat split; try assumption. right. assumption.
Qed.

(** X9. When [OnFrame] leaves a decode target's embedded index and layer
    alone, a call that selects ends with [current_layer] at or below the
    target layer in both dimensions: the selector does not overshoot. The
    target layer is unchanged, and [current_layer] is the layer of a decode
    target of the selector with a non-negative index. *)
Theorem selected_within_target :
  forall (Marshal : dede.DependencyDescriptorExtension -> list Byte.byte + error)
         (d : DependencyDescriptor) (p : packet.ExtPacket) (l : Z)
         (d' : DependencyDescriptor) (r : VideoLayerSelectorResult),
    keepsEmbedded ->
    Select Marshal d p l = Some (d', r) -> IsSelected r = true ->
    Spatial (currentLayer (base d')) <= Spatial (targetLayer (base d))
    /\ Temporal (currentLayer (base d')) <= Temporal (targetLayer (base d))
    /\ targetLayer (base d') = targetLayer (base d)
    /\ exists dt, In dt (decodeTargets d')
                  /\ Layer (embedded dt) = currentLayer (base d')
                  /\ 0 <= Target (embedded dt).
Proof.
  intros Marshal d p l d' r Hemb H Hsel.
  destruct (selected_cases Marshal d p l d' r H Hsel)
    as (ddwdt & d3 & dts & chosen & dti & Hs).
  unfold selectedAs in Hs. cbv zeta in Hs.
  destruct Hs as (_ & _ & _ & Hbt & Hfind & Ht & _ & _ & Hb & _ & _ & _ & _ & _
                  & Hdt & _).
  destruct (beforeTargets_frame d ddwdt d3 Hbt) as [(Fb & _) _].
  rewrite Fb in Hfind.
  destruct (findHighest_chosen _ _ _ _ _ _ _ _ Hfind Ht)
    as (dt & dt1 & fr & Hin & Hact & Hsp & Htm & Hon & _ & _ & Hch & Hin1).
  pose proof (Hemb (chains d3) dt (packet.ExtFrameNum ddwdt)
                   (dede.FrameDependencies (packet.Descriptor ddwdt))) as He.
  rewrite Hon in He. cbn [fst] in He.
  rewrite Hb. cbn [currentLayer targetLayer].
  rewrite Hch, He. repeat split; try assumption.
  exists dt1. rewrite Hdt. repeat split; try assumption.
  - rewrite He. reflexivity.
  - rewrite <- Hch. exact Ht.
Qed.

(** *** Decisions written by a call *)

(** X10. A call writes at most one decision, for the packet's own frame
    number. A call that selects records Forwarded exactly when the
    descriptor has integrity and writes nothing otherwise; a call that does
    not select writes nothing or records Dropped. So Forwarded is never
    recorded for a packet that was not selected, nor Dropped for one that
    was. *)
Theorem Select_writes_one_decision :
  forall (Marshal : dede.DependencyDescriptorExtension -> list Byte.byte + error)
         (d : DependencyDescriptor) (p : packet.ExtPacket) (l : Z)
         (d' : DependencyDescriptor) (r : VideoLayerSelectorResult),
    Select Marshal d p l = Some (d', r) ->
    (IsSelected r = true ->
       exists ddwdt,
         packet.DependencyDescriptor p = Some ddwdt
         /\ decisions d'
            = (if packet.Integrity ddwdt
               then AddForwarded (decisions d) (packet.ExtFrameNum ddwdt)
               else decisions d))
    /\ (IsSelected r = false ->
          decisions d' = decisions d
          \/ exists ddwdt,
               packet.DependencyDescriptor p = Some ddwdt
               /\ decisions d'
                  = AddDropped (decisions d) (packet.ExtFrameNum ddwdt)).
Proof.
  intros Marshal d p l d' r H.
  destruct (Select_inv Marshal d p l d' r H) as [(Hr & _ & Hd)|Hs].
  - rewrite Hr, notSelected_IsSelected. split; [discriminate|].
    intros _. exact Hd.
  - destruct Hs as (ddwdt & d3 & dts & chosen & dti & Hs).
    unfold selectedAs in Hs. cbv zeta in Hs.
    destruct Hs as (Hdd & _ & _ & _ & _ & _ & _ & _ & _ & _ & _ & Hd & _ & _ & _
                    & Hr).
    rewrite Hr. cbn [IsSelected]. split; [|discriminate].
    intros _. exists ddwdt. split; assumption.
Qed.

(** *** Result flags *)

(** X11. The result flags of every call agree with each other: resuming
    implies switching, switching implies selected, a packet that is not
    selected has no RTP marker and no extension bytes, the packet is
    relevant exactly when the selector was locked or the call switches, and
    the call switches exactly when it changes [current_layer]. *)
Theorem result_flags_consistent :
  forall (Marshal : dede.DependencyDescriptorExtension -> list Byte.byte + error)
         (d : DependencyDescriptor) (p : packet.ExtPacket) (l : Z)
         (d' : DependencyDescriptor) (r : VideoLayerSelectorResult),
    Select Marshal d p l = Some (d', r) ->
    IsRelevant r = IsValid (currentLayer (base d)) || IsSwitching r
    /\ (IsResuming r = true -> IsSwitching r = true)
    /\ (IsSwitching r = true -> IsSelected r = true)
    /\ (IsSelected r = false ->
        RTPMarker r = false /\ DependencyDescriptorExtension r = None)
    /\ (IsSwitching r = true <->
        currentLayer (base d') <> currentLayer (base d)).
Proof.
  intros Marshal d p l d' r H.
  destruct (Select_inv Marshal d p l d' r H) as [(Hr & (Fb & _) & _)|Hs].
  - rewrite Hr, Fb. unfold notSelected.
    destruct (IsValid _); cbn;
      repeat split; try discriminate; try congruence; intros []; reflexivity.
  - destruct Hs as (ddwdt & d3 & dts & chosen & dti & Hs).
    unfold selectedAs in Hs. cbv zeta in Hs.
    destruct Hs as (_ & _ & _ & _ & _ & _ & _ & _ & Hb & _ & _ & _ & _ & _ & _
                    & Hr).
    rewrite Hr, Hb. cbn.
    destruct (VideoLayer_eqb (currentLayer (base d)) (Layer chosen)) eqn:Hsw;
      cbn [negb andb orb].
    + apply VideoLayer_eqb_eq in Hsw. rewrite orb_false_r.
      repeat split; try discriminate; try congruence.
    + rewrite orb_true_r.
      repeat split; try discriminate; try reflexivity.
      intros _ Heq. rewrite Heq in Hsw.
      assert (VideoLayer_eqb (currentLayer (base d)) (currentLayer (base d))
              = true) by (apply VideoLayer_eqb_eq; reflexivity).
      congruence.
Qed.

(** *** What a selected packet carries *)

(** X12. What a selected packet carries is computed from the state the
    call leaves: the RTP marker compares the frame's spatial id with the new
    [current_layer], and the bytes are [Marshal] of the descriptor with the
    selector's structure and, when the packet attaches no structure and the
    selector has an active bitmask, that (new) bitmask; with a structure
    attached or without a bitmask the descriptor goes out as it came. *)
Theorem selected_uses_new_state :
  forall (Marshal : dede.DependencyDescriptorExtension -> list Byte.byte + error)
         (d : DependencyDescriptor) (p : packet.ExtPacket) (l : Z)
         (d' : DependencyDescriptor) (r : VideoLayerSelectorResult),
    Select Marshal d p l = Some (d', r) -> IsSelected r = true ->
    exists ddwdt,
      let dd := packet.Descriptor ddwdt in
      packet.DependencyDescriptor p = Some ddwdt
      /\ RTPMarker r
         = packet.Marker p
           || (dede.LastPacketInFrame dd
               && (Spatial (currentLayer (base d'))
                   =? toInt32 (dede.SpatialId (dede.FrameDependencies dd))))
      /\ DependencyDescriptorExtension r
         = match Marshal (rewrittenExtension d' dd) with
           | inl bytes => Some bytes
           | inr _ => None
           end
      /\ dede.Structure (rewrittenExtension d' dd) = structure d'
      /\ (dede.AttachedStructure dd = None ->
          activeDecodeTargetsBitmask d' <> None ->
          dede.ActiveDecodeTargetsBitmask
            (dede.Descriptor (rewrittenExtension d' dd))
          = activeDecodeTargetsBitmask d')
      /\ (dede.AttachedStructure dd <> None
          \/ activeDecodeTargetsBitmask d' = None ->
          dede.Descriptor (rewrittenExtension d' dd) = dd).
Proof.
  intros Marshal d p l d' r H Hsel.
  destruct (selected_cases Marshal d p l d' r H Hsel)
    as (ddwdt & d3 & dts & chosen & dti & Hs).
  unfold selectedAs in Hs. cbv zeta in Hs.
  destruct Hs as (Hdd & _ & _ & _ & _ & _ & _ & _ & Hb & _ & _ & _ & _ & _ & _
                  & Hr).
  exists ddwdt. cbv zeta. split; [exact Hdd|].
  rewrite Hr, Hb. cbn [RTPMarker DependencyDescriptorExtension currentLayer].
  split; [reflexivity|]. split; [reflexivity|].
  unfold rewrittenExtension.
  destruct (dede.AttachedStructure (packet.Descriptor ddwdt)) as [s|] eqn:Hs;
    destruct (activeDecodeTargetsBitmask d') as [m|] eqn:Hm; cbn;
    repeat split; try reflexivity; try congruence;
    intros [Hc|Hc]; congruence.
Qed.


(** *** When the calls panic *)

Lemma protectingChain_None_iff s dt :
  protectingChain s (Z.to_nat (dede.NumChains s)) dt = None <-> ~ indexable s dt.
Proof.
  unfold protectingChain, indexable.
  destruct (dede.NumChains s >? 0) eqn:Hn.
  - apply Z.gtb_lt in Hn. rewrite Z2Nat.id by lia.
    destruct (index _ (Target dt)) as [chainIdx|].
    + destruct (Z.geb_spec chainIdx (dede.NumChains s)).
      * split; [discriminate|]. intros Hno. exfalso. apply Hno. intros _.
        exists chainIdx. split; [reflexivity | lia].
      * destruct (Z.ltb_spec chainIdx 0).
        -- split; [|reflexivity]. intros _ Hidx.
           destruct Hidx as (c0 & Hc0 & Hpos); [lia|].
           injection Hc0 as <-. lia.
        -- split; [discriminate|]. intros Hno. exfalso. apply Hno. intros _.
           exists chainIdx. split; [reflexivity | lia].
    + split; [|reflexivity]. intros _ Hidx.
      destruct Hidx as (c0 & Hc0 & _); [lia | discriminate].
  - rewrite Z.gtb_ltb in Hn. apply Z.ltb_ge in Hn.
    split; [discriminate|]. intros Hno. exfalso. apply Hno. intros Hpos. lia.
Qed.

Lemma newTargets_None_iff s dts :
  newTargets s (Z.to_nat (dede.NumChains s)) dts = None
  <-> Exists (fun dt => ~ indexable s dt) dts.
Proof.
  induction dts as [|dt rest IH]; cbn [newTargets].
  - split; [discriminate | intros H; inversion H].
  - destruct (protectingChain s _ dt) as [[c l1]|] eqn:Hp.
    + assert (Hok : ~ ~ indexable s dt).
      { intros Hno. apply protectingChain_None_iff in Hno. congruence. }
      destruct (newTargets s _ rest) as [[ts l2]|].
      * split; [discriminate|]. intros H. inversion H; subst.
        -- contradiction.
        -- apply IH in H1. discriminate.
      * split; [|reflexivity]. intros _. right. apply IH. reflexivity.
    + split; [|reflexivity]. intros _. left.
      apply protectingChain_None_iff. exact Hp.
Qed.

Lemma updateDependencyStructure_None_iff d structure dts :
  updateDependencyStructure d structure dts = None
  <-> structure = None
      \/ exists s, structure = Some s
                   /\ Exists (fun dt => ~ indexable s dt) dts.
Proof.
  unfold updateDependencyStructure.
  destruct structure as [s|].
  2:{ split; [left; reflexivity | reflexivity]. }
  cbn [chains set_chains set_structure]. rewrite length_newChains.
  destruct (newTargets s _ dts) as [[ts ls]|] eqn:Hn.
  - split; [discriminate|]. intros [Hno|(s0 & Hs0 & Hex)]; [discriminate|].
    injection Hs0 as <-. apply newTargets_None_iff in Hex. congruence.
  - split; [|reflexivity]. intros _. right. exists s.
    split; [reflexivity|]. apply newTargets_None_iff. exact Hn.
Qed.

Lemma beforeTargets_None_iff d ddwdt :
  beforeTargets d ddwdt = None
  <-> (packet.StructureUpdated ddwdt = true
       /\ updateDependencyStructure d
            (dede.AttachedStructure (packet.Descriptor ddwdt))
            (packet.DecodeTargets ddwdt) = None)
      \/ (packet.ActiveDecodeTargetsUpdated ddwdt = true
          /\ dede.ActiveDecodeTargetsBitmask (packet.Descriptor ddwdt) = None).
Proof.
  unfold beforeTargets.
  destruct (packet.StructureUpdated ddwdt).
  - destruct (updateDependencyStructure d _ _) as [d1|].
    + destruct (packet.ActiveDecodeTargetsUpdated ddwdt).
      * destruct (dede.ActiveDecodeTargetsBitmask _).
        -- split; [discriminate|]. intros [[_ H]|[_ H]]; discriminate.
        -- split; [|reflexivity]. intros _. right. split; reflexivity.
      * split; [discriminate|]. intros [[_ H]|[H _]]; discriminate.
    + split; [|reflexivity]. intros _. left. split; reflexivity.
  - destruct (packet.ActiveDecodeTargetsUpdated ddwdt).
    + destruct (dede.ActiveDecodeTargetsBitmask _).
      * split; [discriminate|]. intros [[H _]|[_ H]]; discriminate.
      * split; [|reflexivity]. intros _. right. split; reflexivity.
    + split; [discriminate|]. intros [[H _]|[H _]]; discriminate.
Qed.

Lemma Select_None_iff Marshal d p l :
  Select Marshal d p l = None
  <-> exists ddwdt,
        packet.DependencyDescriptor p = Some ddwdt
        /\ snd (GetDecision (decisions d) (packet.ExtFrameNum ddwdt)) = None
        /\ fst (GetDecision (decisions d) (packet.ExtFrameNum ddwdt))
           <> selectorDecisionDropped
        /\ beforeTargets d ddwdt = None.
Proof.
  split.
  - intros H.
    destruct (packet.DependencyDescriptor p) as [ddwdt|] eqn:Hdd.
    2:{ unfold Select in H. rewrite Hdd in H. discriminate. }
    exists ddwdt. split; [reflexivity|].
    destruct (GetDecision (decisions d) (packet.ExtFrameNum ddwdt))
      as [sd [err|]] eqn:Hgd.
    { unfold Select in H. cbv zeta in H. rewrite Hdd, Hgd in H.
      destruct sd; discriminate. }
    cbn [fst snd]. split; [reflexivity|].
    assert (Hsd : sd <> selectorDecisionDropped).
    { intros ->. unfold Select in H. cbv zeta in H. rewrite Hdd, Hgd in H.
      discriminate. }
    split; [exact Hsd|].
    destruct (beforeTargets d ddwdt) as [d3|] eqn:Hbt; [|reflexivity].
    exfalso.
    destruct (findHighestDecodeTarget (chains d3) (targetLayer (base d3))
                (packet.ExtFrameNum ddwdt)
                (dede.FrameDependencies (packet.Descriptor ddwdt))
                (decodeTargets d3)) as [dts fr] eqn:Hfind.
    destruct (beforeTargets_frame d ddwdt d3 Hbt) as [_ Fd].
    unfold beforeTargets in Hbt.
    unfold Select in H. cbv zeta in H. rewrite Hdd, Hgd in H.
    destruct (if packet.StructureUpdated ddwdt then _ else _) as [d1|];
      [|discriminate].
    destruct (if packet.ActiveDecodeTargetsUpdated ddwdt then _ else _)
      as [d2|]; [|discriminate].
    injection Hbt as Hbt. rewrite Hbt, Hfind in H.
    destruct sd; try congruence;
      (destruct fr as [err|chosen dti]; [discriminate|]);
      (destruct (Target chosen <? 0); [discriminate|]);
      (destruct (dede.DecodeTargetIndication_eqb dti _); [discriminate|]);
      (destruct (negb (isDecodable _ _ _)); [discriminate|]);
      (destruct (negb (VideoLayer_eqb _ (Layer chosen)));
       [destruct (negb (IsValid _)); cbn in H|]);
      match type of H with
      | context [Marshal ?e] => destruct (Marshal e)
      end;
      destruct (packet.Integrity ddwdt); discriminate.
  - intros (ddwdt & Hdd & Herr & Hsd & Hbt).
    unfold Select. cbv zeta. rewrite Hdd.
    destruct (GetDecision (decisions d) (packet.ExtFrameNum ddwdt))
      as [sd [err|]]; cbn [fst snd] in Herr, Hsd; [discriminate|].
    unfold beforeTargets in Hbt.
    destruct (if packet.StructureUpdated ddwdt then _ else _) as [d1|].
    + destruct (if packet.ActiveDecodeTargetsUpdated ddwdt then _ else _)
        as [d2|]; [discriminate|].
      destruct sd; congruence.
    + destruct sd; congruence.
Qed.

(** X13. [Select] panics exactly when the packet has a descriptor whose
    frame is neither too old nor dropped, and either the descriptor is
    flagged as a structure update while its structure is nil or lacks a
    non-negative chain index for one of the decode targets, or it is flagged
    as an update of the active decode targets while its bitmask is nil. In
    every other case the call returns. *)
Theorem Select_panics_iff :
  forall (Marshal : dede.DependencyDescriptorExtension -> list Byte.byte + error)
         (d : DependencyDescriptor) (p : packet.ExtPacket) (l : Z),
    Select Marshal d p l = None
    <-> exists ddwdt,
          let dd := packet.Descriptor ddwdt in
          packet.DependencyDescriptor p = Some ddwdt
          /\ snd (GetDecision (decisions d) (packet.ExtFrameNum ddwdt)) = None
          /\ fst (GetDecision (decisions d) (packet.ExtFrameNum ddwdt))
             <> selectorDecisionDropped
          /\ ((packet.StructureUpdated ddwdt = true
               /\ (dede.AttachedStructure dd = None
                   \/ exists s,
                        dede.AttachedStructure dd = Some s
                        /\ Exists (fun dt => ~ indexable s dt)
                                  (packet.DecodeTargets ddwdt)))
              \/ (packet.ActiveDecodeTargetsUpdated ddwdt = true
                  /\ dede.ActiveDecodeTargetsBitmask dd = None)).
Proof.
  intros Marshal d p l. rewrite Select_None_iff.
  split; intros (ddwdt & Hdd & Herr & Hsd & H); exists ddwdt; cbv zeta in *;
    (split; [exact Hdd|]); (split; [exact Herr|]); (split; [exact Hsd|]).
  - apply beforeTargets_None_iff in H. destruct H as [[Hs Hu]|Ha].
    + left. split; [exact Hs|].
      apply updateDependencyStructure_None_iff in Hu. exact Hu.
    + right. exact Ha.
  - apply beforeTargets_None_iff. destruct H as [[Hs Hu]|Ha].
    + left. split; [exact Hs|].
      apply updateDependencyStructure_None_iff. exact Hu.
    + right. exact Ha.
Qed.

(** *** Chains and decode targets after the updates *)

(** X14. After a structure update there are [NumChains] chains (none for
    a count that is not positive), and the decode targets are built one for
    one from the packet's list: each with the chain at the index the
    structure names, which exists in the new chain list, or with no chain
    when the structure has no chains or the index is out of range. No
    decode target refers to a chain that does not exist. *)
Theorem built_targets_refer_to_chains :
  forall (d : DependencyDescriptor) (s : dede.FrameDependencyStructure)
         (dts : list DependencyDescriptorDecodeTarget) (d' : DependencyDescriptor),
    updateDependencyStructure d (Some s) dts = Some d' ->
    List.length (chains d') = Z.to_nat (dede.NumChains s)
    /\ Forall2 (fun dt t =>
                  exists chain,
                    t = NewDecodeTarget dt chain
                    /\ match chain with
                       | Some i =>
                           (i < List.length (chains d'))%nat
                           /\ index (dede.DecodeTargetProtectedByChain s)
                                    (Target dt) = Some (Z.of_nat i)
                       | None =>
                           dede.NumChains s <= 0 \/ outOfRange s dt = true
                       end)
               dts (decodeTargets d').
Proof.
  intros d s dts d' H.
  assert (Hsome : updateDependencyStructure d (Some s) dts <> None)
    by congruence.
  assert (Hidx : Forall (fun dt => ~ ~ indexable s dt) dts).
  { apply Forall_forall. intros dt Hin Hno. apply Hsome.
    apply updateDependencyStructure_None_iff. right. exists s.
    split; [reflexivity|]. apply Exists_exists. exists dt. split; assumption. }
  unfold updateDependencyStructure in H.
  cbn [chains set_chains set_structure] in H. rewrite length_newChains in H.
  destruct (newTargets s _ dts) as [[ts ls]|] eqn:Hn; [|discriminate].
  destruct (newTargets_inv s dts ts ls Hn) as [-> ->].
  inversion H; subst; clear H. cbn [chains decodeTargets set_decodeTargets logAll
                                    set_chains].
  rewrite length_newChains. split; [reflexivity|].
  clear Hn Hsome. induction dts as [|dt rest IH]; cbn [map]; constructor.
  - exists (chainOf s dt). split; [reflexivity|].
    inversion Hidx as [|? ? Hdt _]; subst.
    unfold chainOf, outOfRange.
    destruct (Z.gtb_spec (dede.NumChains s) 0) as [Hpos|Hpos];
      cbn [andb]; [|left; lia].
    destruct (index _ (Target dt)) as [chainIdx|] eqn:Hi.
    + destruct (Z.geb_spec chainIdx (dede.NumChains s)); [right; reflexivity|].
      assert (0 <= chainIdx).
      { destruct (Z_lt_le_dec chainIdx 0) as [Hneg|]; [|assumption].
        exfalso. apply Hdt. intros Hidx'.
        destruct Hidx' as (c0 & Hc0 & Hc0pos); [lia|].
        rewrite Hi in Hc0. injection Hc0 as <-. lia. }
      split; [lia|]. rewrite Z2Nat.id by lia. reflexivity.
    + exfalso. apply Hdt. intros Hidx'.
      destruct Hidx' as (c0 & Hc0 & _); [lia | congruence].
  - apply IH. inversion Hidx; assumption.
Qed.

Lemma updateActiveAll_length mask cs dts :
  List.length (fst (updateActiveAll mask cs dts)) = List.length dts.
Proof.
  revert cs. induction dts as [|dt rest IH]; intros cs; cbn [updateActiveAll];
    [reflexivity|].
  destruct (UpdateActive mask cs dt) as [dt1 cs1].
  specialize (IH cs1).
  destruct (updateActiveAll mask cs1 rest) as [rest1 cs2]. cbn in *. congruence.
Qed.

Lemma updateActiveDecodeTargets_nil d mask :
  decodeTargets d = [] -> decodeTargets (updateActiveDecodeTargets d mask) = [].
Proof.
  intros Hnil. unfold updateActiveDecodeTargets. rewrite Hnil. reflexivity.
Qed.

(** X15. The update of the active decode targets keeps the number of decode
    targets and touches only the chains and the decode targets: the
    selector's own active bitmask and previous bitmask, the layer state,
    the decisions, the structure and the log stay as they were. Without
    decode targets the chains only go through [BeginUpdateActive] and
    [EndUpdateActive]. *)
Theorem updateActiveDecodeTargets_keeps :
  forall (d : DependencyDescriptor) (mask : Z),
    let d' := updateActiveDecodeTargets d mask in
    List.length (decodeTargets d') = List.length (decodeTargets d)
    /\ activeDecodeTargetsBitmask d' = activeDecodeTargetsBitmask d
    /\ previousActiveDecodeTargetsBitmask d'
       = previousActiveDecodeTargetsBitmask d
    /\ base d' = base d /\ decisions d' = decisions d
    /\ structure d' = structure d /\ logged d' = logged d
    /\ (decodeTargets d = [] ->
        decodeTargets d' = []
        /\ chains d'
           = map EndUpdateActive (map BeginUpdateActive (chains d))).
Proof.
  intros d mask d'. subst d'. unfold updateActiveDecodeTargets.
  pose proof (updateActiveAll_length mask (map BeginUpdateActive (chains d))
                                     (decodeTargets d)) as Hlen.
  destruct (updateActiveAll mask _ (decodeTargets d)) as [ts cs] eqn:Hall.
  cbn in *. repeat split; try assumption;
    match goal with
    | Hnil : decodeTargets d = [] |- _ =>
        rewrite Hnil in Hall; cbn in Hall; congruence
    end.
Qed.


(** *** A selector without decode targets *)

(** X17. A selector without decode targets, as it is before the first
    structure, drops every packet whose descriptor brings no structure
    update and records the frame as Dropped; the layer state and the
    structure are unchanged. *)
Theorem no_decode_targets_drops :
  forall (Marshal : dede.DependencyDescriptorExtension -> list Byte.byte + error)
         (d : DependencyDescriptor) (p : packet.ExtPacket) (l : Z)
         (ddwdt : packet.ExtDependencyDescriptor),
    packet.DependencyDescriptor p = Some ddwdt ->
    decodeTargets d = [] ->
    packet.StructureUpdated ddwdt = false ->
    snd (GetDecision (decisions d) (packet.ExtFrameNum ddwdt)) = None ->
    fst (GetDecision (decisions d) (packet.ExtFrameNum ddwdt))
    <> selectorDecisionDropped ->
    (packet.ActiveDecodeTargetsUpdated ddwdt = true ->
     dede.ActiveDecodeTargetsBitmask (packet.Descriptor ddwdt) <> None) ->
    exists d',
      Select Marshal d p l = Some (d', notSelected d)
      /\ decisions d' = AddDropped (decisions d) (packet.ExtFrameNum ddwdt)
      /\ decodeTargets d' = []
      /\ frame d d' /\ structure d' = structure d.
Proof.
  intros Marshal d p l ddwdt Hdd Hnil Hstruct Herr Hsd Hmask.
  unfold Select. cbv zeta. fold (notSelected d). rewrite Hdd, Hstruct.
  destruct (GetDecision (decisions d) (packet.ExtFrameNum ddwdt))
    as [sd [err|]]; cbn [fst snd] in Herr, Hsd; [discriminate|].
  assert (Hupd : forall m, decodeTargets (updateActiveDecodeTargets d m) = []).
  { intros m. apply updateActiveDecodeTargets_nil. exact Hnil. }
  destruct (packet.ActiveDecodeTargetsUpdated ddwdt).
  - destruct (dede.ActiveDecodeTargetsBitmask (packet.Descriptor ddwdt))
      as [m|]; [|exfalso; apply Hmask; reflexivity].
    destruct (updateActiveDecodeTargets_frame d m) as ((Hb & Ha & Hp) & Hd & Hs).
    destruct sd; try congruence;
      cbn [decodeTargets set_chains]; rewrite (Hupd m);
      cbn [findHighestDecodeTarget Target Z.ltb Z.compare];
      eexists; (split; [reflexivity|]); cbn;
      rewrite ?Hd, ?Hs; repeat split; assumption.
  - destruct sd; try congruence;
      cbn [decodeTargets set_chains]; rewrite Hnil;
      cbn [findHighestDecodeTarget Target Z.ltb Z.compare];
      eexists; (split; [reflexivity|]); cbn; repeat split.
Qed.

End More.

(** *** CheckSync *)

Section Sync.

Context {C : Collaborators}.

Variable Valid : list FrameChain -> DecodeTarget -> bool.

Lemma matchingDecodeTarget_iff d dts :
  matchingDecodeTarget Valid d dts = true
  <-> exists dt,
        In dt dts /\ Active dt = true
        /\ Spatial (Layer (embedded dt)) <= Spatial (targetLayer (base d))
        /\ Valid (chains d) dt = true.
Proof.
  induction dts as [|dt rest IH]; cbn [matchingDecodeTarget].
  - split; [discriminate | intros (dt & [] & _)].
  - destruct (Active dt && (Spatial (Layer (embedded dt)) <=? Spatial (GetTarget d))
              && Valid (chains d) dt) eqn:Hc.
    + split; [|reflexivity]. intros _.
      apply andb_true_iff in Hc as [Hc Hv].
      apply andb_true_iff in Hc as [Ha Hs]. apply Z.leb_le in Hs.
      exists dt. repeat split; try assumption. left. reflexivity.
    + rewrite IH. split.
      * intros (dt0 & Hin & Hrest). exists dt0. split; [right|]; assumption.
      * intros (dt0 & [<-|Hin] & Ha & Hs & Hv).
        -- apply Z.leb_le in Hs. unfold GetTarget in Hc.
           rewrite Ha, Hs, Hv in Hc. discriminate.
        -- exists dt0. repeat split; assumption.
Qed.

(** X16. [CheckSync] returns the requested spatial layer, and reports
    locked exactly when [current_layer] is valid and some decode target is
    active, at or below the target's spatial layer and valid. It changes
    nothing but the log. *)
Theorem CheckSync_locked_iff :
  forall d : DependencyDescriptor,
    let d' := fst (CheckSync Valid d) in
    let locked := fst (snd (CheckSync Valid d)) in
    let layer := snd (snd (CheckSync Valid d)) in
    layer = requestSpatial (base d)
    /\ (locked = true
        <-> IsValid (currentLayer (base d)) = true
            /\ exists dt,
                 In dt (decodeTargets d) /\ Active dt = true
                 /\ Spatial (Layer (embedded dt))
                    <= Spatial (targetLayer (base d))
                 /\ Valid (chains d) dt = true)
    /\ frame d d' /\ decisions d' = decisions d /\ chains d' = chains d
    /\ decodeTargets d' = decodeTargets d /\ structure d' = structure d.
Proof.
  intros d d' locked layer. subst d' locked layer. unfold CheckSync.
  destruct (IsValid (currentLayer (base d))); cbn [negb].
  - destruct (matchingDecodeTarget Valid d (decodeTargets d)) eqn:Hm;
      cbn [fst snd]; (split; [reflexivity|]); (split; [|repeat split]).
    + split; [|reflexivity]. intros _. split; [reflexivity|].
      apply matchingDecodeTarget_iff. exact Hm.
    + split; [discriminate|]. intros [_ Hex].
      apply matchingDecodeTarget_iff in Hex. congruence.
  - cbn [fst snd]. split; [reflexivity|]. split; [|repeat split].
    split; [discriminate | intros [Hc _]; discriminate].
Qed.

End Sync.

(** *** The properties on the concrete streams *)

Import specmodel scenarios.

Lemma selected_within_target_witness :
  let p := delta 102 [1] 1 allSwitch in
  let r := mkVLSResult true true true false false (Some []) in
  keepsEmbedded
  /\ Select marshalOk d101low p 0 = Some (after d101low p, r)
  /\ IsSelected r = true
  /\ targetLayer (base d101low) = mkLayer 0 1
  /\ Spatial (currentLayer (base (after d101low p))) <= 0
  /\ Temporal (currentLayer (base (after d101low p))) <= 1.
Proof.
  intros p r.
  assert (Hk : keepsEmbedded).
  { intros cs dt efn fd. cbn. unfold target_OnFrame.
    destruct (index _ _); reflexivity. }
  assert (E : Select marshalOk d101low p 0 = Some (after d101low p, r))
    by (vm_compute; reflexivity).
  split; [exact Hk|]. split; [exact E|]. split; [reflexivity|].
  split; [reflexivity|].
  destruct (selected_within_target marshalOk d101low p 0 _ r Hk E eq_refl)
    as (Hs & Ht & _).
  exact (conj Hs Ht).
Defined.

Lemma Select_writes_one_decision_witness :
  let p := delta 102 [1] 1 allRequired in
  let r := mkVLSResult true true false false true (Some []) in
  Select marshalOk d101 p 0 = Some (after d101 p, r)
  /\ exists ddwdt,
       packet.DependencyDescriptor p = Some ddwdt
       /\ decisions (after d101 p)
          = (if packet.Integrity ddwdt
             then AddForwarded (decisions d101) (packet.ExtFrameNum ddwdt)
             else decisions d101).
Proof.
  intros p r.
  assert (E : Select marshalOk d101 p 0 = Some (after d101 p, r))
    by (vm_compute; reflexivity).
  split; [exact E|].
  exact (proj1 (Select_writes_one_decision marshalOk d101 p 0 _ r E) eq_refl).
Defined.

Lemma result_flags_consistent_witness :
  let p := keyframe 100 structure2 in
  let r := mkVLSResult true true true true true (Some []) in
  Select marshalOk d0 p 0 = Some (d100, r)
  /\ IsRelevant r = IsValid (currentLayer (base d0)) || IsSwitching r
  /\ (IsSwitching r = true <-> currentLayer (base d100) <> currentLayer (base d0)).
Proof.
  intros p r.
  assert (E : Select marshalOk d0 p 0 = Some (d100, r))
    by (vm_compute; reflexivity).
  split; [exact E|].
  destruct (result_flags_consistent marshalOk d0 p 0 d100 r E)
    as (Hrel & _ & _ & _ & Hsw).
  exact (conj Hrel Hsw).
Defined.

Lemma selected_uses_new_state_witness :
  let p := delta 102 [1] 1 allSwitch in
  let r := mkVLSResult true true true false false (Some []) in
  Select marshalOk d101low p 0 = Some (after d101low p, r)
  /\ IsSelected r = true
  /\ activeDecodeTargetsBitmask (after d101low p) = Some 3
  /\ exists ddwdt,
       packet.DependencyDescriptor p = Some ddwdt
       /\ dede.ActiveDecodeTargetsBitmask
            (dede.Descriptor
               (rewrittenExtension (after d101low p) (packet.Descriptor ddwdt)))
          = activeDecodeTargetsBitmask (after d101low p).
Proof.
  intros p r.
  assert (E : Select marshalOk d101low p 0 = Some (after d101low p, r))
    by (vm_compute; reflexivity).
  assert (Ha : activeDecodeTargetsBitmask (after d101low p) = Some 3)
    by (vm_compute; reflexivity).
  split; [exact E|]. split; [reflexivity|]. split; [exact Ha|].
  destruct (selected_uses_new_state marshalOk d101low p 0 _ r E eq_refl)
    as (ddwdt & H).
  cbv zeta in H. destruct H as (Hdd & _ & _ & _ & Hmask & _).
  exists ddwdt. split; [exact Hdd|].
  apply Hmask.
  - injection Hdd as <-. reflexivity.
  - rewrite Ha. discriminate.
Defined.

Lemma built_targets_refer_to_chains_witness :
  updateDependencyStructure d0 (Some structure2) targets = Some dTwo
  /\ List.length (chains dTwo) = 2%nat
  /\ List.length (decodeTargets dTwo) = 3%nat.
Proof.
  assert (E : updateDependencyStructure d0 (Some structure2) targets = Some dTwo)
    by (vm_compute; reflexivity).
  split; [exact E|].
  destruct (built_targets_refer_to_chains d0 structure2 targets dTwo E)
    as (Hlen & Hall).
  split; [exact Hlen|].
  apply Forall2_length in Hall. symmetry. exact Hall.
Defined.

Lemma no_decode_targets_drops_witness :
  let p := delta 101 [1] 1 allRequired in
  exists ddwdt d',
    packet.DependencyDescriptor p = Some ddwdt
    /\ decodeTargets d0 = []
    /\ Select marshalOk d0 p 0 = Some (d', notSelected d0)
    /\ decisions d' = AddDropped (decisions d0) 101.
Proof.
  intros p.
  destruct (packet.DependencyDescriptor p) as [ddwdt|] eqn:Hdd;
    [|discriminate].
  destruct (no_decode_targets_drops marshalOk d0 p 0 ddwdt Hdd eq_refl)
    as (d' & E & Hd & _).
  - injection Hdd as <-. reflexivity.
  - injection Hdd as <-. reflexivity.
  - injection Hdd as <-. vm_compute. discriminate.
  - injection Hdd as <-. intros H. discriminate H.
  - exists ddwdt, d'. split; [reflexivity|]. split; [reflexivity|].
    split; [exact E|]. injection Hdd as <-. exact Hd.
Defined.

End selector_more_facts.
